(** * Recovery targets of cvpysdk: the catalog and the detail document

    A shallow embedding of [cvpysdk/recovery_targets.py]: the classes
    [RecoveryTargets] (the catalog of target names and ids) and
    [RecoveryTarget] (one target and its flattened configuration), with
    the Python operations they use on parsed JSON values. *)

From stdpp Require Import base strings gmap list pretty.
From Stdlib Require Import ZArith Ascii.

Set Warnings "-register-all".

(** ** Python values

    Every value the module handles comes out of [response.json()] or is
    a literal of the source: [None], booleans, integers, strings, lists
    and dictionaries with string keys.  JSON numbers with a fraction are
    not modelled.  A dictionary is the list of its items; a key is looked
    up from the front, so the list of a parsed document has no repeated
    key. *)

Inductive json : Type :=
| JNull
| JBool (b : bool)
| JNum (n : Z)
| JStr (s : string)
| JList (l : list json)
| JObj (items : list (string * json)).

(** The exceptions the module can end with.  [SDKException module id
    message] stands for what the statement
    [raise SDKException(module, id, message)] raises: the class is
    imported from [cvpysdk.exception], and what its constructor does
    with the three strings is not part of this module.  The others are
    the built-in errors raised by the dictionary, list and attribute
    operations. *)

Inductive exn : Type :=
| SDKException (exception_module exception_id exception_message : string)
| KeyError
| TypeError
| IndexError
| AttributeError.

Inductive result (A : Type) : Type :=
| Ok (a : A)
| Raise (e : exn).

Arguments Ok {A} a.
Arguments Raise {A} e.

#[global] Instance result_ret : MRet result := fun A a => Ok a.
#[global] Instance result_bind : MBind result := fun A B f r =>
  match r with
  | Ok a => f a
  | Raise e => Raise e
  end.

(** The three kinds of failure the module raises on purpose. *)

Definition ResponseError (e : exn) : Prop :=
  exists code msg, e = SDKException "Response" code msg.

Definition InvalidInputError : exn := SDKException "Target" "101" "".

Definition NotFoundError (name : string) : exn :=
  SDKException "RecoveryTarget" "102" ("No target exists with name: " +:+ name).

Definition EMPTY_DICT : json := JObj [].

(** [bool(v)]: what [if v:] and [a and b] test. *)
Definition truthy (v : json) : bool :=
  match v with
  | JNull => false
  | JBool b => b
  | JNum n => negb (n =? 0)%Z
  | JStr s => negb (String.eqb s "")
  | JList l => match l with [] => false | _ => true end
  | JObj items => match items with [] => false | _ => true end
  end.

Fixpoint dict_lookup (k : string) (items : list (string * json)) : option json :=
  match items with
  | [] => None
  | (k', v) :: rest => if String.eqb k' k then Some v else dict_lookup k rest
  end.

(** [v.get(k, default)]: only a dictionary has the method. *)
Definition py_get (v : json) (k : string) (default : json) : result json :=
  match v with
  | JObj items => Ok (from_option id default (dict_lookup k items))
  | _ => Raise AttributeError
  end.

(** [v[k]] for a string [k]. *)
Definition py_getitem (v : json) (k : string) : result json :=
  match v with
  | JObj items =>
      match dict_lookup k items with
      | Some x => Ok x
      | None => Raise KeyError
      end
  | _ => Raise TypeError
  end.

(** [v[0]]: the first element of a list, the first character of a
    string; a dictionary of a JSON document has no key [0]. *)
Definition py_first (v : json) : result json :=
  match v with
  | JList (x :: _) => Ok x
  | JList [] => Raise IndexError
  | JStr (String c _) => Ok (JStr (String c ""))
  | JStr EmptyString => Raise IndexError
  | JObj _ => Raise KeyError
  | _ => Raise TypeError
  end.

Fixpoint str_contains (needle hay : string) : bool :=
  String.prefix needle hay ||
  match hay with
  | EmptyString => false
  | String _ rest => str_contains needle rest
  end.

Definition is_str (s : string) (v : json) : bool :=
  match v with
  | JStr s' => String.eqb s' s
  | _ => false
  end.

(** [k in v] for a string [k]: a key of a dictionary, an element of a
    list, a substring of a string. *)
Definition py_in (k : string) (v : json) : result bool :=
  match v with
  | JObj items => Ok (bool_decide (is_Some (dict_lookup k items)))
  | JList l => Ok (existsb (is_str k) l)
  | JStr s => Ok (str_contains k s)
  | _ => Raise TypeError
  end.

Fixpoint chars (s : string) : list json :=
  match s with
  | EmptyString => []
  | String c rest => JStr (String c "") :: chars rest
  end.

(** The values a [for x in v] loop visits. *)
Definition py_iter (v : json) : result (list json) :=
  match v with
  | JList l => Ok l
  | JObj items => Ok (map (fun kv => JStr kv.1) items)
  | JStr s => Ok (chars s)
  | _ => Raise TypeError
  end.

(** A string is the sequence of the bytes of its UTF-8 encoding.
    [str.isascii()]: every character is an ASCII one. *)
Fixpoint isascii (s : string) : bool :=
  match s with
  | EmptyString => true
  | String c rest => (Ascii.N_of_ascii c <? 128)%N && isascii rest
  end.

(** [str.lower()] on a string of ASCII characters: the letters [A] to
    [Z] become [a] to [z], and nothing else changes. *)
Definition lower_ascii (c : Ascii.ascii) : Ascii.ascii :=
  let n := Ascii.N_of_ascii c in
  if ((65 <=? n) && (n <=? 90))%N then Ascii.ascii_of_N (n + 32) else c.

Fixpoint ascii_lower (s : string) : string :=
  match s with
  | EmptyString => EmptyString
  | String c rest => String (lower_ascii c) (ascii_lower rest)
  end.

(** ** The session

    [commcell_object] gives the transport, the table of services and
    the function that cleans the text of a failed response.  None of them
    is part of this module: the transport answers the [n]-th request
    of the session, and the entry ['GET_RECOVERY_TARGET'] is taken with
    the id already put in the place of its [%s]. *)

Record Response := { json_ : json; text : string }.

Record Commcell := {
  make_request : nat -> string -> string -> bool * Response;
  GET_ALL_RECOVERY_TARGETS : string;
  GET_RECOVERY_TARGET : string -> string;
  _update_response_ : string -> string
}.

(** The requests sent so far, oldest first: method and URL. *)
Definition requests : Type := list (string * string).

(** A method runs on its object [self] and on the log of requests, and
    returns or raises; what it assigned before raising stays. *)
Definition M (S A : Type) : Type := S -> requests -> result A * S * requests.

#[global] Instance M_ret {S} : MRet (M S) := fun A a self log => (Ok a, self, log).
#[global] Instance M_bind {S} : MBind (M S) := fun A B f m self log =>
  match m self log with
  | (Ok a, self', log') => f a self' log'
  | (Raise e, self', log') => (Raise e, self', log')
  end.

Definition raise {S A} (e : exn) : M S A := fun self log => (Raise e, self, log).

Definition assign {S} (f : S -> S) : M S unit := fun self log => (Ok (), f self, log).

Definition gets {S A} (f : S -> A) : M S A := fun self log => (Ok (f self), self, log).

Definition lift {S A} (r : result A) : M S A := fun self log => (r, self, log).

Definition request {S} (cc : Commcell) (method url : string) : M S (bool * Response) :=
  fun self log => (Ok (make_request cc (length log) method url), self, log ++ [(method, url)]).

(** [C(...)]: [__init__] runs on a new object; the caller gets the
    object when it returns. *)
Definition new {S T} (blank : T) (init : M T unit) : M S T := fun self log =>
  match init blank log with
  | (Ok _, obj, log') => (Ok obj, self, log')
  | (Raise e, _, log') => (Raise e, self, log')
  end.

(** ** Sessions and documents used as examples *)

(** A session whose transport answers the successive requests from a
    script, and fails once the script is over. *)
Definition scripted (script : list (bool * Response)) : Commcell :=
  {| make_request := fun n _ _ =>
       nth n script (false, {| json_ := JNull; text := "no answer" |});
     GET_ALL_RECOVERY_TARGETS := "/recoveryTargets";
     GET_RECOVERY_TARGET := fun target_id => "/recoveryTargets/" +:+ target_id;
     _update_response_ := fun t => t |}.

Definition ok_response (body : json) : bool * Response :=
  (true, {| json_ := body; text := "" |}).

(** Python's [str] of a container is not needed by the examples. *)
Definition no_container_str (v : json) : string := "".

Definition record (target_id : json) (name applicationType : string) : json :=
  JObj [("id", target_id); ("name", JStr name); ("applicationType", JStr applicationType)].

(** The list response of the scenario of the specification. *)
Definition list_body : json :=
  JObj [("recoveryTargets",
         JList [record (JNum 1) "Tgt1" "REGULAR"; record (JNum 2) "CR" "CLEAN_ROOM"])].

Definition aws_body : json :=
  JObj [("entity", JObj [("policyType", JStr "AMAZON"); ("applicationType", JStr "REGULAR")]);
        ("liveMountOptions", JObj [("expirationTime", JObj [("minutesRetainUntil", JNum 4)])])].

Definition vmware_body : json :=
  JObj [("entity", JObj [("policyType", JStr "VMW_LIVEMOUNT")]);
        ("destinationOptions", JObj [("destinationHost", JStr "esx01")]);
        ("liveMountOptions", JObj [("expirationTime", JObj [("daysRetainUntil", JNum 2)])])].

Definition hyperv_body : json :=
  JObj [("entity", JObj [("policyType", JStr "MICROSOFT")])].

Definition hyperv_network_body : json :=
  JObj [("entity", JObj [("policyType", JStr "MICROSOFT")]);
        ("destinationOptions", JObj [("dataStore", JStr "D:\\vms")]);
        ("networkOptions",
         JObj [("networkCard", JObj [("networkNames", JList [JStr "net0"; JStr "net1"])])])].

Definition aws_no_security_group_body : json :=
  JObj [("entity", JObj [("policyType", JStr "AMAZON")]);
        ("securityOptions", JObj [("securityGroups", JList [])])].

Definition hyperv_no_network_body : json :=
  JObj [("entity", JObj [("policyType", JStr "MICROSOFT")]);
        ("networkOptions", JObj [("networkCard", JObj [("networkNames", JList [])])])].

Definition aws_no_instance_type_body : json :=
  JObj [("entity", JObj [("policyType", JStr "AMAZON")]);
        ("cloudDestinationOptions", JObj [("instanceTypes", JList [])])].

Definition azure_body : json :=
  JObj [("entity", JObj [("policyType", JStr "AZURE_RESOURCE_MANAGER")])].

Definition unknown_body : json :=
  JObj [("entity", JObj [("policyType", JStr "ORACLE_CLOUD")])].

(** A [RecoveryTarget] object is the dictionary of its attributes. *)
Abbreviation attrs := (gmap string json).

(** What a constructor call gives: the object, when it returns one. *)
Definition constructed {S} (r : result attrs * S * requests) : attrs :=
  match r with
  | (Ok obj, _, _) => obj
  | _ => ∅
  end.

(** The call returns an object, and the object satisfies [P]. *)
Definition returns_with {S} (r : result attrs * S * requests) (P : attrs -> Prop) : Prop :=
  match r with
  | (Ok obj, _, _) => P obj
  | _ => False
  end.

(** Membership of a given string or number in a given list. *)
Ltac not_in :=
  repeat (apply not_elem_of_cons; split; [discriminate|]); apply not_elem_of_nil.

Ltac is_in :=
  repeat (apply elem_of_cons; first [left; reflexivity | right]).

Section recovery_targets.

(** [str(v)] of a list or of a dictionary is Python's [repr] of the
    container; its text is left open. *)
Variable container_str : json -> string.

(** [s.lower()] of a string with a character outside ASCII follows the
    Unicode tables of the language (['ÄB'.lower()] is ['äb'], and a
    character can become two); its result is left open. *)
Variable unicode_lower : string -> string.

(** [s.lower()] *)
Definition lower (s : string) : string :=
  if isascii s then ascii_lower s else unicode_lower s.

Definition py_lower (v : json) : result string :=
  match v with
  | JStr s => Ok (lower s)
  | _ => Raise AttributeError
  end.

(** [str(v)], which is also what an f-string and [format] print. *)
Definition py_str (v : json) : string :=
  match v with
  | JNull => "None"
  | JBool true => "True"
  | JBool false => "False"
  | JNum n => pretty n
  | JStr s => s
  | JList _ | JObj _ => container_str v
  end.

(** ** class RecoveryTargets *)

Record RecoveryTargets := { _recovery_targets : option (gmap string string) }.

(** The body of the [for] loop of [_get_recovery_targets], on the
    dictionary built so far. *)
Definition add_recovery_target (recoveryTarget : json)
    (recovery_target_dict : gmap string string) : result (gmap string string) :=
  applicationType ← py_getitem recoveryTarget "applicationType";
  if negb (is_str "CLEAN_ROOM" applicationType) then
    name ← py_getitem recoveryTarget "name";
    temp_name ← py_lower name;
    target_id ← py_getitem recoveryTarget "id";
    Ok (<[temp_name := py_str target_id]> recovery_target_dict)
  else Ok recovery_target_dict.

Fixpoint add_recovery_targets (records : list json)
    (recovery_target_dict : gmap string string) : result (gmap string string) :=
  match records with
  | [] => Ok recovery_target_dict
  | recoveryTarget :: rest =>
      d ← add_recovery_target recoveryTarget recovery_target_dict;
      add_recovery_targets rest d
  end.

(** What [_get_recovery_targets] does with the answer of the transport. *)
Definition recovery_targets_of (cc : Commcell) (flag : bool) (response : Response)
    : result (gmap string string) :=
  if flag then
    if truthy (json_ response) then
      found ← py_in "recoveryTargets" (json_ response);
      if found : bool then
        recoveryTargets ← py_getitem (json_ response) "recoveryTargets";
        records ← py_iter recoveryTargets;
        add_recovery_targets records ∅
      else Raise (SDKException "Response" "102" "")
    else Raise (SDKException "Response" "102" "")
  else Raise (SDKException "Response" "101" (_update_response_ cc (text response))).

Definition _get_recovery_targets (cc : Commcell) : M RecoveryTargets (gmap string string) :=
  '(flag, response) ← request cc "GET" (GET_ALL_RECOVERY_TARGETS cc);
  lift (recovery_targets_of cc flag response).

Definition all_targets (self : RecoveryTargets) : option (gmap string string) :=
  _recovery_targets self.

(** [self._recovery_targets and target_name.lower() in
    self._recovery_targets]: the value of [and] is its first operand
    when that one is false ([None] or the empty dictionary). *)
Definition has_recovery_target (target_name : json) : M RecoveryTargets json :=
  match target_name with
  | JStr name =>
      targets ← gets _recovery_targets;
      match targets with
      | None => mret JNull
      | Some d =>
          if bool_decide (d = ∅) then mret EMPTY_DICT
          else mret (JBool (bool_decide (is_Some (d !! lower name))))
      end
  | _ => raise (SDKException "Target" "101" "")
  end.

Definition refresh (cc : Commcell) : M RecoveryTargets unit :=
  d ← _get_recovery_targets cc;
  assign (fun _ => {| _recovery_targets := Some d |}).

Definition RecoveryTargets__init__ (cc : Commcell) : M RecoveryTargets unit :=
  assign (fun _ => {| _recovery_targets := None |});;
  refresh cc.

Definition new_RecoveryTargets {S} (cc : Commcell) : M S RecoveryTargets :=
  new {| _recovery_targets := None |} (RecoveryTargets__init__ cc).

(** ** class RecoveryTarget

    The object is the dictionary of its attributes: an attribute that
    was never assigned is not in it, and reading it raises
    [AttributeError]. *)

Definition setattr (name : string) (v : json) : M attrs unit :=
  assign (<[name := v]>).

Definition getattr (name : string) : M attrs json :=
  v ← gets (fun self : attrs => self !! name);
  match v with
  | Some v => mret v
  | None => raise AttributeError
  end.

(** [self.name = e], where evaluating [e] can raise. *)
Definition setattr_from (name : string) (e : result json) : M attrs unit :=
  v ← lift e; setattr name v.

(** [v.get(k1, d1).get(k2, d2)...] *)
Fixpoint chain (v : json) (path : list (string * json)) : result json :=
  match path with
  | [] => Ok v
  | (k, default) :: rest => x ← py_get v k default; chain x rest
  end.

(** [d[k]] on the dictionary of the catalog, whose keys are strings. *)
Definition dict_getitem (d : gmap string string) (k : json) : result string :=
  match k with
  | JStr s =>
      match d !! s with
      | Some v => Ok v
      | None => Raise KeyError
      end
  | JList _ | JObj _ => Raise TypeError
  | _ => Raise KeyError
  end.

Definition str_of (v : json) : result string :=
  match v with
  | JStr s => Ok s
  | _ => Raise TypeError
  end.

Definition _get_recovery_target_id (cc : Commcell) : M attrs string :=
  target ← new_RecoveryTargets cc;
  name ← getattr "_recovery_target_name";
  match all_targets target with
  | Some d => lift (dict_getitem d name)
  | None => raise TypeError
  end.

Definition policy_type_code (policy_type : json) : Z :=
  if is_str "AMAZON" policy_type then 1
  else if is_str "MICROSOFT" policy_type then 2
  else if is_str "AZURE_RESOURCE_MANAGER" policy_type then 7
  else if existsb (fun s => is_str s policy_type) ["VMW_BACKUP_LABTEMPLATE"; "VMW_LIVEMOUNT"] then 13
  else (-1).

Definition _set_policy_type (policy_type : json) : M attrs unit :=
  setattr "_policy_type" (JNum (policy_type_code policy_type)).

(** The six lines on the expiration time, which the source has three
    times (AWS, Azure, VMware) with the same text. *)
Definition set_expiration_time (props : json) : M attrs unit :=
  expiry_hours ← lift (chain props
    [("liveMountOptions", EMPTY_DICT); ("expirationTime", EMPTY_DICT); ("minutesRetainUntil", JStr "")]);
  expiry_days ← lift (chain props
    [("liveMountOptions", EMPTY_DICT); ("expirationTime", EMPTY_DICT); ("daysRetainUntil", JStr "")]);
  if truthy expiry_hours then
    setattr "_expiration_time" (JStr (py_str expiry_hours +:+ " hours"))
  else if truthy expiry_days then
    setattr "_expiration_time" (JStr (py_str expiry_days +:+ " days"))
  else mret ().

(** [x.get(k, [d])[0]] then, for a dictionary entry, [.get('name', '')]. *)
Definition first_of (props : json) (path : list (string * json)) : result json :=
  l ← chain props path; py_first l.

Definition load_aws (props : json) : M attrs unit :=
  setattr_from "_availability_zone" (chain props [("cloudDestinationOptions", EMPTY_DICT); ("availabilityZone", JNull)]);;
  setattr_from "_volume_type" (chain props [("cloudDestinationOptions", EMPTY_DICT); ("volumeType", JNull)]);;
  setattr_from "_encryption_key" (chain props [("cloudDestinationOptions", EMPTY_DICT); ("encryptionKey", EMPTY_DICT); ("name", JNull)]);;
  setattr_from "_encryption_key_id" (chain props [("cloudDestinationOptions", EMPTY_DICT); ("encryptionKey", EMPTY_DICT); ("id", JNull)]);;
  setattr_from "_iam_role_name" (chain props [("destinationOptions", EMPTY_DICT); ("iamRole", EMPTY_DICT); ("name", JNull)]);;
  setattr_from "_iam_role_id" (chain props [("destinationOptions", EMPTY_DICT); ("iamRole", EMPTY_DICT); ("id", JNull)]);;
  setattr_from "_destination_network" (chain props [("networkOptions", EMPTY_DICT); ("networkCard", EMPTY_DICT); ("networkDisplayName", JNull)]);;
  setattr_from "_security_group"
    (g ← first_of props [("securityOptions", EMPTY_DICT); ("securityGroups", JList [EMPTY_DICT])];
     py_get g "name" (JStr ""));;
  setattr_from "_instance_type"
    (first_of props [("cloudDestinationOptions", EMPTY_DICT); ("instanceTypes", JList [JStr "Auto"])]);;
  set_expiration_time props;;
  setattr_from "_test_virtual_network" (chain props [("networkOptions", EMPTY_DICT); ("cloudNetwork", EMPTY_DICT); ("label", JNull)]);;
  setattr_from "_test_security_group"
    (g ← first_of props [("securityOptions", EMPTY_DICT); ("testSecurityGroups", JList [EMPTY_DICT])];
     py_get g "name" (JStr ""));;
  setattr_from "_test_vm_size" (chain props [("cloudDestinationOptions", EMPTY_DICT); ("vmInstanceType", JStr "Auto")]).

Definition load_hyperv (props : json) : M attrs unit :=
  setattr_from "_vm_folder" (chain props [("destinationOptions", EMPTY_DICT); ("dataStore", JStr "")]);;
  setattr_from "_destination_network"
    (first_of props [("networkOptions", EMPTY_DICT); ("networkCard", EMPTY_DICT); ("networkNames", JNull)]);;
  setattr_from "_destination_host" (chain props [("destinationOptions", EMPTY_DICT); ("destinationHost", JStr "")]).

Definition load_azure (props : json) : M attrs unit :=
  setattr_from "_resource_group" (chain props [("destinationOptions", EMPTY_DICT); ("destinationHost", JStr "")]);;
  setattr_from "_region" (chain props [("cloudDestinationOptions", EMPTY_DICT); ("region", EMPTY_DICT); ("name", JNull)]);;
  setattr_from "_availability_zone" (chain props [("cloudDestinationOptions", EMPTY_DICT); ("availabilityZone", JNull)]);;
  setattr_from "_storage_account" (chain props [("destinationOptions", EMPTY_DICT); ("dataStore", JStr "")]);;
  setattr_from "_vm_size" (chain props [("cloudDestinationOptions", EMPTY_DICT); ("vmInstanceType", JNull)]);;
  setattr_from "_disk_type" (chain props [("cloudDestinationOptions", EMPTY_DICT); ("volumeType", JNull)]);;
  setattr_from "_virtual_network" (chain props [("networkOptions", EMPTY_DICT); ("networkCard", EMPTY_DICT); ("networkDisplayName", JNull)]);;
  setattr_from "_security_group"
    (g ← first_of props [("securityOptions", EMPTY_DICT); ("securityGroups", JList [EMPTY_DICT])];
     py_get g "name" (JStr ""));;
  setattr_from "_create_public_ip" (chain props [("cloudDestinationOptions", EMPTY_DICT); ("publicIP", JNull)]);;
  setattr_from "_restore_as_managed_vm" (chain props [("cloudDestinationOptions", EMPTY_DICT); ("restoreAsManagedVM", JNull)]);;
  set_expiration_time props;;
  setattr_from "_test_virtual_network" (chain props [("networkOptions", EMPTY_DICT); ("cloudNetwork", EMPTY_DICT); ("label", JNull)]);;
  setattr_from "_test_vm_size"
    (t ← first_of props [("amazonPolicy", EMPTY_DICT); ("vmInstanceTypes", JList [EMPTY_DICT])];
     py_get t "vmInstanceTypeName" (JStr "")).

Fixpoint iso_paths (isos : list json) : result (list json) :=
  match isos with
  | [] => Ok []
  | iso :: rest =>
      p ← py_getitem iso "isoPath";
      ps ← iso_paths rest;
      Ok (p :: ps)
  end.

Definition load_vmware (props : json) : M attrs unit :=
  setattr_from "_destination_host" (chain props [("destinationOptions", EMPTY_DICT); ("destinationHost", JStr "")]);;
  setattr_from "_datastore" (chain props [("destinationOptions", EMPTY_DICT); ("dataStore", JStr "")]);;
  setattr_from "_resource_pool" (chain props [("destinationOptions", EMPTY_DICT); ("resourcePoolPath", JStr "")]);;
  setattr_from "_vm_folder" (chain props [("destinationOptions", EMPTY_DICT); ("vmFolder", JStr "")]);;
  setattr_from "_destination_network" (chain props [("networkOptions", EMPTY_DICT); ("networkCard", EMPTY_DICT); ("destinationNetworks", JList [])]);;
  setattr_from "_vm_storage_policy" (py_get props "vmStoragePolicyName" JNull);;
  set_expiration_time props;;
  mediaAgent ← lift (py_get props "mediaAgent" EMPTY_DICT);
  (if truthy mediaAgent then
     setattr_from "_failover_ma" (ma ← py_getitem props "mediaAgent"; py_getitem ma "clientName")
   else mret ());;
  setattr_from "_isolated_network" (chain props [("virtualLabOptions", EMPTY_DICT); ("configureIsolatedNetwork", JNull)]);;
  setattr_from "_no_of_cpu" (py_get props "maxCores" JNull);;
  setattr_from "_no_of_vm" (py_get props "maxVMQuota" JNull);;
  setattr_from "_iso_paths"
    (isoInfo ← py_get props "isoInfo" (JList []);
     isos ← py_iter isoInfo;
     ps ← iso_paths isos;
     Ok (JList ps));;
  associatedClientGroup ← lift (py_get props "associatedClientGroup" JNull);
  if truthy associatedClientGroup then
    setattr_from "_server_group"
      (g ← py_getitem props "associatedClientGroup"; py_getitem g "clientGroupName")
  else mret ().

(** [props["entity"].get("policyType", "")] *)
Definition doc_policy_type (props : json) : result json :=
  entity ← py_getitem props "entity"; py_get entity "policyType" (JStr "").

(** The success branch of [_get_recovery_target_properties]: first
    the document and the fields every target has, *)
Definition load_common (props : json) : M attrs unit :=
  setattr "_recovery_target_properties" props;;
  setattr_from "_application_type" (chain props [("entity", EMPTY_DICT); ("applicationType", JNull)]);;
  setattr_from "_destination_hypervisor" (chain props [("entity", EMPTY_DICT); ("destinationHypervisor", EMPTY_DICT); ("name", JNull)]);;
  setattr_from "_vm_suffix" (chain props [("vmDisplayName", EMPTY_DICT); ("suffix", JStr "")]);;
  setattr_from "_vm_prefix" (chain props [("vmDisplayName", EMPTY_DICT); ("prefix", JStr "")]);;
  setattr_from "_access_node" (chain props [("accessNode", EMPTY_DICT); ("name", JStr "")]);;
  access_node_type ← lift (chain props [("accessNode", EMPTY_DICT); ("type", JStr "")]);
  (if is_str "Group" access_node_type then
     access_node ← getattr "_access_node"; setattr "_access_node_client_group" access_node
   else setattr "_access_node_client_group" (JStr ""));;
  setattr_from "_users" (chain props [("securityOptions", EMPTY_DICT); ("users", JList [])]);;
  setattr_from "_user_groups" (chain props [("securityOptions", EMPTY_DICT); ("userGroups", JList [])]).

(** then the policy type and the fields of that type. *)
Definition populate (props : json) : M attrs unit :=
  load_common props;;
  policy_type ← lift (doc_policy_type props);
  _set_policy_type policy_type;;
  code ← getattr "_policy_type";
  match code with
  | JNum 1 => load_aws props
  | JNum 2 => load_hyperv props
  | JNum 7 => load_azure props
  | JNum 13 => load_vmware props
  | _ => mret ()
  end.

(** What [_get_recovery_target_properties] does with the answer of the
    transport. *)
Definition load_properties (cc : Commcell) (flag : bool) (response : Response) : M attrs unit :=
  if flag then
    if truthy (json_ response) then
      found ← lift (py_in "entity" (json_ response));
      if found : bool then populate (json_ response)
      else raise (SDKException "Response" "102" "")
    else raise (SDKException "Response" "102" "")
  else raise (SDKException "Response" "101" (_update_response_ cc (text response))).

Definition _get_recovery_target_properties (cc : Commcell) : M attrs unit :=
  api ← getattr "_RECOVERY_TARGET_API";
  url ← lift (str_of api);
  '(flag, response) ← request cc "GET" url;
  load_properties cc flag response.

Definition RecoveryTarget_refresh (cc : Commcell) : M attrs unit :=
  _get_recovery_target_properties cc.

(** The attributes [__init__] sets before the first [refresh], with
    their values, in the order of the source. *)
Definition defaults : list (string * json) :=
  [ ("_recovery_target_properties", JNull);
    ("_policy_type", JNull); ("_application_type", JNull);
    ("_destination_hypervisor", JNull); ("_access_node", JNull);
    ("_access_node_client_group", JNull);
    ("_users", JList []); ("_user_groups", JList []);
    ("_vm_prefix", JStr ""); ("_vm_suffix", JStr "");
    ("_destination_host", JNull); ("_vm_storage_policy", JNull);
    ("_datastore", JNull); ("_resource_pool", JNull);
    ("_destination_network", JNull); ("_expiration_time", JNull);
    ("_failover_ma", JNull); ("_isolated_network", JNull);
    ("_no_of_cpu", JNull); ("_no_of_vm", JNull); ("_iso_paths", JList []);
    ("_resource_group", JNull); ("_region", JNull);
    ("_availability_zone", JNull); ("_storage_account", JNull);
    ("_vm_size", JNull); ("_disk_type", JNull); ("_virtual_network", JNull);
    ("_vm_folder", JNull); ("_security_group", JNull);
    ("_create_public_ip", JNull); ("_restore_as_managed_vm", JNull);
    ("_test_virtual_network", JNull); ("_test_security_group", JNull);
    ("_test_vm_size", JNull);
    ("_volume_type", JNull); ("_encryption_key", JNull);
    ("_iam_role_id", JNull); ("_iam_role_name", JNull);
    ("_instance_type", JNull) ].

Fixpoint set_all (l : list (string * json)) : M attrs unit :=
  match l with
  | [] => mret ()
  | (name, v) :: rest => setattr name v;; set_all rest
  end.

Definition RecoveryTarget__init__ (cc : Commcell)
    (recovery_target_name recovery_target_id : json) : M attrs unit :=
  name ← lift (py_lower recovery_target_name);
  setattr "_recovery_target_name" (JStr name);;
  target_id ← (if truthy recovery_target_id then mret (py_str recovery_target_id)
               else _get_recovery_target_id cc);
  setattr "_recovery_target_id" (JStr target_id);;
  setattr "_RECOVERY_TARGET_API" (JStr (GET_RECOVERY_TARGET cc target_id));;
  set_all defaults;;
  RecoveryTarget_refresh cc.

(** [RecoveryTarget(commcell_object, name, id)]; [id] is [None] when
    the caller gives none. *)
Definition new_RecoveryTarget {S} (cc : Commcell)
    (recovery_target_name recovery_target_id : json) : M S attrs :=
  new ∅ (RecoveryTarget__init__ cc recovery_target_name recovery_target_id).

(** [RecoveryTargets.get] *)
Definition get (cc : Commcell) (recovery_target_name : json) : M RecoveryTargets attrs :=
  match recovery_target_name with
  | JStr s =>
      let recovery_target_name := JStr (lower s) in
      present ← has_recovery_target recovery_target_name;
      if truthy present then
        targets ← gets all_targets;
        match targets with
        | Some d =>
            target_id ← lift (dict_getitem d recovery_target_name);
            new_RecoveryTarget cc recovery_target_name (JStr target_id)
        | None => raise TypeError
        end
      else raise (SDKException "RecoveryTarget" "102"
                    ("No target exists with name: " +:+ lower s))
  | _ => raise (SDKException "Target" "101" "")
  end.

(** The properties of [RecoveryTarget] that return one attribute: the
    name of the property and the attribute it reads. *)
Definition properties : list (string * string) :=
  [ ("recovery_target_id", "_recovery_target_id");
    ("recovery_target_name", "_recovery_target_name");
    ("policy_type", "_policy_type"); ("application_type", "_application_type");
    ("destination_hypervisor", "_destination_hypervisor");
    ("access_node", "_access_node");
    ("access_node_client_group", "_access_node_client_group");
    ("vm_prefix", "_vm_prefix"); ("vm_suffix", "_vm_suffix");
    ("destination_host", "_destination_host");
    ("vm_storage_policy", "_vm_storage_policy");
    ("datastore", "_datastore"); ("resource_pool", "_resource_pool");
    ("vm_folder", "_vm_folder"); ("destination_network", "_destination_network");
    ("expiration_time", "_expiration_time"); ("failover_ma", "_failover_ma");
    ("isolated_network", "_isolated_network"); ("iso_path", "_iso_paths");
    ("server_group", "_server_group");
    ("no_of_cpu", "_no_of_cpu"); ("no_of_vm", "_no_of_vm");
    ("resource_group", "_resource_group"); ("region", "_region");
    ("availability_zone", "_availability_zone");
    ("storage_account", "_storage_account"); ("vm_size", "_vm_size");
    ("disk_type", "_disk_type"); ("virtual_network", "_virtual_network");
    ("security_group", "_security_group");
    ("create_public_ip", "_create_public_ip");
    ("restore_as_managed_vm", "_restore_as_managed_vm");
    ("test_virtual_network", "_test_virtual_network");
    ("test_security_group", "_test_security_group");
    ("test_vm_size", "_test_vm_size"); ("volume_type", "_volume_type");
    ("encryption_key", "_encryption_key"); ("iam_role_id", "_iam_role_id");
    ("iam_role_name", "_iam_role_name"); ("instance_type", "_instance_type") ].

(** Reading the property [prop] of the object [self]. *)
Definition read_property (prop : string) (self : attrs) : result json :=
  match list_to_map (M := gmap string string) properties !! prop with
  | Some attr =>
      match self !! attr with
      | Some v => Ok v
      | None => Raise AttributeError
      end
  | None => Raise AttributeError
  end.

Definition server_group (self : attrs) : result json := read_property "server_group" self.
Definition expiration_time (self : attrs) : result json := read_property "expiration_time" self.
Definition policy_type (self : attrs) : result json := read_property "policy_type" self.

(** ** The properties in the words of the specification *)

(** A record of the list response: [applicationType], [name] (a
    string) and [id]. *)
Definition record_fields (r : json) : option (json * string * json) :=
  match r with
  | JObj items =>
      match dict_lookup "applicationType" items, dict_lookup "name" items,
            dict_lookup "id" items with
      | Some applicationType, Some (JStr name), Some target_id =>
          Some (applicationType, name, target_id)
      | _, _, _ => None
      end
  | _ => None
  end.

(** The record is visible in the catalog under the key [k]. *)
Definition listed_as (k : string) (r : json) : option json :=
  match record_fields r with
  | Some (applicationType, name, target_id) =>
      if negb (is_str "CLEAN_ROOM" applicationType) && String.eqb (lower name) k
      then Some target_id else None
  | None => None
  end.

(** The id of the last record visible under [k], if there is one. *)
Fixpoint last_listed (k : string) (records : list json) : option json :=
  match records with
  | [] => None
  | r :: rest =>
      match last_listed k rest with
      | Some target_id => Some target_id
      | None => listed_as k r
      end
  end.

(** The attributes each branch of [_get_recovery_target_properties]
    assigns, by numeric policy type. *)
Definition aws_attrs : list string :=
  [ "_availability_zone"; "_volume_type"; "_encryption_key"; "_encryption_key_id";
    "_iam_role_name"; "_iam_role_id"; "_destination_network"; "_security_group";
    "_instance_type"; "_expiration_time"; "_test_virtual_network";
    "_test_security_group"; "_test_vm_size" ].

Definition hyperv_attrs : list string :=
  [ "_vm_folder"; "_destination_network"; "_destination_host" ].

Definition azure_attrs : list string :=
  [ "_resource_group"; "_region"; "_availability_zone"; "_storage_account";
    "_vm_size"; "_disk_type"; "_virtual_network"; "_security_group";
    "_create_public_ip"; "_restore_as_managed_vm"; "_expiration_time";
    "_test_virtual_network"; "_test_vm_size" ].

Definition vmware_attrs : list string :=
  [ "_destination_host"; "_datastore"; "_resource_pool"; "_vm_folder";
    "_destination_network"; "_vm_storage_policy"; "_expiration_time";
    "_failover_ma"; "_isolated_network"; "_no_of_cpu"; "_no_of_vm";
    "_iso_paths"; "_server_group" ].

Definition group (code : Z) : list string :=
  match code with
  | 1 => aws_attrs
  | 2 => hyperv_attrs
  | 7 => azure_attrs
  | 13 => vmware_attrs
  | _ => []
  end%Z.

Definition variant_attrs : list string :=
  aws_attrs ++ hyperv_attrs ++ azure_attrs ++ vmware_attrs.

(** The value of an attribute that no load has assigned: the one
    [__init__] gave it, or no attribute at all. *)
Definition unset (attr : string) : option json :=
  list_to_map (M := gmap string json) defaults !! attr.

(** [props.liveMountOptions.expirationTime.<key>], when every step is
    there. *)
Definition retain_until (key : string) (props : json) : option json :=
  match props with
  | JObj items =>
      match dict_lookup "liveMountOptions" items with
      | Some (JObj options) =>
          match dict_lookup "expirationTime" options with
          | Some (JObj expiration) => dict_lookup key expiration
          | _ => None
          end
      | _ => None
      end
  | _ => None
  end.

Definition present_and_truthy (o : option json) : option json :=
  match o with
  | Some v => if truthy v then Some v else None
  | None => None
  end.

(** The text of the expiration time, when one is rendered. *)
Definition rendered_expiration (props : json) : option string :=
  match present_and_truthy (retain_until "minutesRetainUntil" props) with
  | Some v => Some (py_str v +:+ " hours")
  | None =>
      match present_and_truthy (retain_until "daysRetainUntil" props) with
      | Some v => Some (py_str v +:+ " days")
      | None => None
      end
  end.

(** The attributes every load assigns, whatever the policy type. *)
(** The attributes each branch of [_get_recovery_target_properties]
    assigns without a condition, with the expression of the source. *)
Definition aws_fields (props : json) : list (string * result json) :=
  [ ("_availability_zone",
     chain props [("cloudDestinationOptions", EMPTY_DICT); ("availabilityZone", JNull)]);
    ("_volume_type",
     chain props [("cloudDestinationOptions", EMPTY_DICT); ("volumeType", JNull)]);
    ("_encryption_key",
     chain props [("cloudDestinationOptions", EMPTY_DICT); ("encryptionKey", EMPTY_DICT);
                  ("name", JNull)]);
    ("_encryption_key_id",
     chain props [("cloudDestinationOptions", EMPTY_DICT); ("encryptionKey", EMPTY_DICT);
                  ("id", JNull)]);
    ("_iam_role_name",
     chain props [("destinationOptions", EMPTY_DICT); ("iamRole", EMPTY_DICT); ("name", JNull)]);
    ("_iam_role_id",
     chain props [("destinationOptions", EMPTY_DICT); ("iamRole", EMPTY_DICT); ("id", JNull)]);
    ("_destination_network",
     chain props [("networkOptions", EMPTY_DICT); ("networkCard", EMPTY_DICT);
                  ("networkDisplayName", JNull)]);
    ("_security_group",
     g ← first_of props [("securityOptions", EMPTY_DICT); ("securityGroups", JList [EMPTY_DICT])];
     py_get g "name" (JStr ""));
    ("_instance_type",
     first_of props [("cloudDestinationOptions", EMPTY_DICT);
                     ("instanceTypes", JList [JStr "Auto"])]);
    ("_test_virtual_network",
     chain props [("networkOptions", EMPTY_DICT); ("cloudNetwork", EMPTY_DICT); ("label", JNull)]);
    ("_test_security_group",
     g ← first_of props [("securityOptions", EMPTY_DICT);
                         ("testSecurityGroups", JList [EMPTY_DICT])];
     py_get g "name" (JStr ""));
    ("_test_vm_size",
     chain props [("cloudDestinationOptions", EMPTY_DICT); ("vmInstanceType", JStr "Auto")]) ].

Definition hyperv_fields (props : json) : list (string * result json) :=
  [ ("_vm_folder", chain props [("destinationOptions", EMPTY_DICT); ("dataStore", JStr "")]);
    ("_destination_network",
     first_of props [("networkOptions", EMPTY_DICT); ("networkCard", EMPTY_DICT);
                     ("networkNames", JNull)]);
    ("_destination_host",
     chain props [("destinationOptions", EMPTY_DICT); ("destinationHost", JStr "")]) ].

Definition azure_fields (props : json) : list (string * result json) :=
  [ ("_resource_group",
     chain props [("destinationOptions", EMPTY_DICT); ("destinationHost", JStr "")]);
    ("_region",
     chain props [("cloudDestinationOptions", EMPTY_DICT); ("region", EMPTY_DICT);
                  ("name", JNull)]);
    ("_availability_zone",
     chain props [("cloudDestinationOptions", EMPTY_DICT); ("availabilityZone", JNull)]);
    ("_storage_account",
     chain props [("destinationOptions", EMPTY_DICT); ("dataStore", JStr "")]);
    ("_vm_size",
     chain props [("cloudDestinationOptions", EMPTY_DICT); ("vmInstanceType", JNull)]);
    ("_disk_type",
     chain props [("cloudDestinationOptions", EMPTY_DICT); ("volumeType", JNull)]);
    ("_virtual_network",
     chain props [("networkOptions", EMPTY_DICT); ("networkCard", EMPTY_DICT);
                  ("networkDisplayName", JNull)]);
    ("_security_group",
     g ← first_of props [("securityOptions", EMPTY_DICT); ("securityGroups", JList [EMPTY_DICT])];
     py_get g "name" (JStr ""));
    ("_create_public_ip",
     chain props [("cloudDestinationOptions", EMPTY_DICT); ("publicIP", JNull)]);
    ("_restore_as_managed_vm",
     chain props [("cloudDestinationOptions", EMPTY_DICT); ("restoreAsManagedVM", JNull)]);
    ("_test_virtual_network",
     chain props [("networkOptions", EMPTY_DICT); ("cloudNetwork", EMPTY_DICT); ("label", JNull)]);
    ("_test_vm_size",
     t ← first_of props [("amazonPolicy", EMPTY_DICT); ("vmInstanceTypes", JList [EMPTY_DICT])];
     py_get t "vmInstanceTypeName" (JStr "")) ].

Definition vmware_fields (props : json) : list (string * result json) :=
  [ ("_destination_host",
     chain props [("destinationOptions", EMPTY_DICT); ("destinationHost", JStr "")]);
    ("_datastore", chain props [("destinationOptions", EMPTY_DICT); ("dataStore", JStr "")]);
    ("_resource_pool",
     chain props [("destinationOptions", EMPTY_DICT); ("resourcePoolPath", JStr "")]);
    ("_vm_folder", chain props [("destinationOptions", EMPTY_DICT); ("vmFolder", JStr "")]);
    ("_destination_network",
     chain props [("networkOptions", EMPTY_DICT); ("networkCard", EMPTY_DICT);
                  ("destinationNetworks", JList [])]);
    ("_vm_storage_policy", py_get props "vmStoragePolicyName" JNull);
    ("_isolated_network",
     chain props [("virtualLabOptions", EMPTY_DICT); ("configureIsolatedNetwork", JNull)]);
    ("_no_of_cpu", py_get props "maxCores" JNull);
    ("_no_of_vm", py_get props "maxVMQuota" JNull);
    ("_iso_paths",
     isoInfo ← py_get props "isoInfo" (JList []);
     isos ← py_iter isoInfo;
     ps ← iso_paths isos;
     Ok (JList ps)) ].

(** The fields of the branch of a policy type number. *)
Definition fields_of (code : Z) (props : json) : list (string * result json) :=
  match code with
  | 1 => aws_fields props
  | 2 => hyperv_fields props
  | 7 => azure_fields props
  | 13 => vmware_fields props
  | _ => []
  end%Z.

Definition common_attrs : list string :=
  [ "_recovery_target_properties"; "_application_type"; "_destination_hypervisor";
    "_vm_suffix"; "_vm_prefix"; "_access_node"; "_access_node_client_group";
    "_users"; "_user_groups"; "_policy_type" ].

(** What the specification says of [get] on the input [v], for the
    catalog [self] and the log [log]: an input that is not a string
    raises [InvalidInputError]; a name whose lower case is no key of the
    cached dictionary raises [NotFoundError] with that name; and a name
    that is a key gives what the constructor gives on the stored id, with
    the detail request as the only request sent. *)
Definition get_as_specified (cc : Commcell) (v : json)
    (self : RecoveryTargets) (log : requests) : Prop :=
  match v with
  | JStr s =>
      match all_targets self ≫= (fun d => d !! lower s) with
      | Some target_id =>
          get cc v self log =
            new_RecoveryTarget cc (JStr (lower s)) (JStr target_id) self log /\
          (get cc v self log).2 = log ++ [("GET", GET_RECOVERY_TARGET cc target_id)]
      | None => get cc v self log = (Raise (NotFoundError (lower s)), self, log)
      end
  | _ => get cc v self log = (Raise InvalidInputError, self, log)
  end.

(** What the specification says of the field groups after a load of
    the document [props] into the object [obj]: the policy type is the
    number of [policyType], and every attribute of the policy types that
    is not in the group of that number is at its unset value. *)
Definition one_group_as_specified (props : json) (obj : attrs) : Prop :=
  exists policyType,
    doc_policy_type props = Ok policyType /\
    policy_type obj = Ok (JNum (policy_type_code policyType)) /\
    forall a, a ∈ variant_attrs -> a ∉ group (policy_type_code policyType) ->
      obj !! a = unset a.

(** What the specification says of the expiration time after a load
    of the AWS, Azure or VMware document [props] into the object [obj]:
    the rendered text, and otherwise unset. *)
Definition expiration_as_specified (props : json) (obj : attrs) : Prop :=
  expiration_time obj =
    Ok (match rendered_expiration props with
        | Some t => JStr t
        | None => JNull
        end).

(** The object [__init__] hands to the first [refresh]. *)
Definition before_refresh (name target_id url : string) : attrs :=
  list_to_map defaults ∪
  <["_RECOVERY_TARGET_API" := JStr url]>
    (<["_recovery_target_id" := JStr target_id]>
       (<["_recovery_target_name" := JStr name]> ∅)).

(** A list response whose only record has the empty string as id, a
    session that answers the list request twice with it and then the
    detail request, and the catalog loaded from it. *)
Definition empty_id_list_body : json :=
  JObj [("recoveryTargets", JList [record (JStr "") "Tgt1" "REGULAR"])].

Definition empty_id_session : Commcell :=
  scripted [ok_response empty_id_list_body; ok_response empty_id_list_body;
            ok_response aws_body].

Definition empty_id_catalog : RecoveryTargets :=
  {| _recovery_targets := Some {[ "tgt1" := "" ]} |}.

Definition loaded_catalog : RecoveryTargets :=
  {| _recovery_targets := Some {[ "tgt1" := "1" ]} |}.

(** The construction of the target ["Tgt1"] with the id ["1"], answered
    with the AWS document. *)
Definition aws_run : result attrs * unit * requests :=
  new_RecoveryTarget (scripted [ok_response aws_body]) (JStr "Tgt1") (JStr "1") () [].

(** A first refresh of a target whose transport answers twice with the
    AWS document. *)
Definition answers_twice : Commcell :=
  scripted [ok_response aws_body; ok_response aws_body].

Definition first_refresh : result unit * attrs * requests :=
  RecoveryTarget_refresh answers_twice
    (before_refresh "tgt1" "1" "/recoveryTargets/1") [].

(** A refresh of the AWS target above that is answered with an Azure
    document without expiration time. *)
Definition azure_refresh : result unit * attrs * requests :=
  RecoveryTarget_refresh (scripted [ok_response azure_body]) (constructed aws_run) [].

(** The construction of ["Tgt1"] without an id, and its lookup in the
    loaded catalog. *)
Definition lookup_run : result attrs * unit * requests :=
  new_RecoveryTarget (scripted [ok_response list_body; ok_response vmware_body])
    (JStr "Tgt1") JNull () [].

(** A refresh of that VMware target that is answered with the AWS
    document. *)
Definition aws_refresh : result unit * attrs * requests :=
  RecoveryTarget_refresh (scripted [ok_response aws_body]) (constructed lookup_run) [].

Definition get_run : result attrs * RecoveryTargets * requests :=
  get (scripted [ok_response aws_body]) (JStr "TGT1") loaded_catalog [].

Definition hyperv_run : result attrs * unit * requests :=
  new_RecoveryTarget (scripted [ok_response hyperv_network_body]) (JStr "Tgt1") (JStr "1") () [].

Definition azure_run : result attrs * unit * requests :=
  new_RecoveryTarget (scripted [ok_response azure_body]) (JStr "Tgt1") (JStr "1") () [].

(** The load of the Hyper-V document without [networkNames]. *)
Definition hyperv_load : result unit * attrs * requests :=
  load_properties (scripted []) true {| json_ := hyperv_body; text := "" |} ∅ [].

(** The property [security_user_names]:
    [[user['userName'] for user in self._users]]. *)
Fixpoint user_names (users : list json) : result (list json) :=
  match users with
  | [] => Ok []
  | user :: rest =>
      name ← py_getitem user "userName";
      names ← user_names rest;
      Ok (name :: names)
  end.

Definition security_user_names (self : attrs) : result json :=
  match self !! "_users" with
  | Some users =>
      us ← py_iter users;
      names ← user_names us;
      Ok (JList names)
  | None => Raise AttributeError
  end.

(** ** Predicates on methods *)

(** An exception that is not an [SDKException]. *)
Definition builtin (e : exn) : Prop :=
  match e with
  | SDKException _ _ _ => False
  | _ => True
  end.

Definition plain {A} (r : result A) : Prop :=
  forall e, r = Raise e -> builtin e.

Definition plainM {S A} (m : M S A) : Prop :=
  forall self log e self' log', m self log = (Raise e, self', log') -> builtin e.

(** The method sends no request, also when it raises. *)
Definition silent {S A} (m : M S A) : Prop :=
  forall self log, (m self log).2 = log.

(** A method that has returned returns the same again, and changes
    nothing, on every object that has the attributes [W] as the first
    run left them. *)
Definition replays {A} (W : list string) (m : M attrs A) : Prop :=
  forall s l u s1 l1, m s l = (Ok u, s1, l1) ->
  forall t lt, (forall a, a ∈ W -> t !! a = s1 !! a) -> m t lt = (Ok u, t, lt).

(** The method removes no attribute, also when it raises. *)
Definition keeps {A} (m : M attrs A) : Prop :=
  forall s l a, is_Some (s !! a) -> is_Some ((m s l).1.2 !! a).

(** The method leaves the attribute [a] as it was, also when it raises. *)
Definition preserves {A} (a : string) (m : M attrs A) : Prop :=
  forall self log, (m self log).1.2 !! a = self !! a.

(** ** The catalog *)

Lemma add_recovery_target_listed r acc :
  is_Some (record_fields r) ->
  exists d, add_recovery_target r acc = Ok d /\
    forall k, d !! k = match listed_as k r with
                       | Some target_id => Some (py_str target_id)
                       | None => acc !! k
                       end.
Proof.
  intros [[[app name] target_id] Hr].
  unfold listed_as. rewrite Hr.
  destruct r as [| | | | |items]; try discriminate.
  simpl in Hr.
  destruct (dict_lookup "applicationType" items) as [app'|] eqn:Happ; [|discriminate].
  destruct (dict_lookup "name" items) as [[| | |name'| |]|] eqn:Hname; try discriminate.
  destruct (dict_lookup "id" items) as [id'|] eqn:Hid; [|discriminate].
  injection Hr as -> -> ->.
  unfold add_recovery_target. simpl. rewrite Happ. simpl.
  destruct (is_str "CLEAN_ROOM" app) eqn:Hclean; simpl.
  - eexists; split; [reflexivity|]. reflexivity.
  - rewrite Hname. simpl. rewrite Hid. simpl.
    eexists; split; [reflexivity|]. intros k.
    destruct (String.eqb_spec (lower name) k) as [->|Hne].
    + apply lookup_insert_eq.
    + by apply lookup_insert_ne.
Qed.

Lemma add_recovery_targets_listed records : forall acc,
  Forall (fun r => is_Some (record_fields r)) records ->
  exists d, add_recovery_targets records acc = Ok d /\
    forall k, d !! k = match last_listed k records with
                       | Some target_id => Some (py_str target_id)
                       | None => acc !! k
                       end.
Proof.
  induction records as [|r rest IH]; intros acc Hwf.
  - exists acc. split; reflexivity.
  - apply Forall_cons in Hwf as [Hr Hrest].
    destruct (add_recovery_target_listed r acc Hr) as (d1 & Hd1 & Hlook1).
    destruct (IH d1 Hrest) as (d & Hd & Hlook).
    exists d. split.
    + simpl. rewrite Hd1. exact Hd.
    + intros k. rewrite Hlook. simpl.
      destruct (last_listed k rest); [reflexivity|]. apply Hlook1.
Qed.

Lemma last_listed_Some k records target_id :
  last_listed k records = Some target_id ->
  exists pre r post, records = pre ++ r :: post /\
    listed_as k r = Some target_id /\
    Forall (fun r' => listed_as k r' = None) post.
Proof.
  induction records as [|r rest IH]; [discriminate|].
  simpl. destruct (last_listed k rest) as [i|] eqn:Hrest.
  - intros [= ->]. destruct (IH eq_refl) as (pre & r0 & post & -> & Hr0 & Hpost).
    exists (r :: pre), r0, post. auto.
  - intros Hr. exists [], r, rest. split; [reflexivity|]. split; [exact Hr|].
    clear IH Hr. induction rest as [|r' rest IH]; [constructor|].
    simpl in Hrest. destruct (last_listed k rest) eqn:E; [discriminate|].
    constructor; auto.
Qed.

Lemma last_listed_None k records :
  last_listed k records = None <-> Forall (fun r => listed_as k r = None) records.
Proof.
  induction records as [|r rest IH]; simpl.
  - split; [constructor|reflexivity].
  - rewrite Forall_cons. destruct (last_listed k rest) eqn:E.
    + split; [discriminate|]. intros [_ H]. by apply IH in H.
    + rewrite <- IH. tauto.
Qed.

Lemma last_listed_app k pre r post :
  Forall (fun r' => listed_as k r' = None) post ->
  last_listed k (pre ++ r :: post) =
    match listed_as k r with
    | Some target_id => Some target_id
    | None => last_listed k pre
    end.
Proof.
  intros Hpost. apply last_listed_None in Hpost.
  induction pre as [|p pre IH]; simpl.
  - rewrite Hpost. destruct (listed_as k r); reflexivity.
  - rewrite IH. destruct (listed_as k r); reflexivity.
Qed.

Lemma listed_as_inv k r target_id :
  listed_as k r = Some target_id <->
  exists applicationType name,
    record_fields r = Some (applicationType, name, target_id) /\
    is_str "CLEAN_ROOM" applicationType = false /\ lower name = k.
Proof.
  unfold listed_as. destruct (record_fields r) as [[[app name] i]|].
  - destruct (is_str "CLEAN_ROOM" app) eqn:Hclean; simpl.
    + split; [discriminate|]. intros (? & ? & [= <- <- <-] & ? & ?). congruence.
    + destruct (String.eqb_spec (lower name) k) as [<-|Hne].
      * split.
        -- intros [= <-]. eauto.
        -- intros (? & ? & [= <- <- <-] & _ & _). reflexivity.
      * split; [discriminate|]. intros (? & ? & [= <- <- <-] & _ & ?). contradiction.
  - split; [discriminate|]. intros (? & ? & ? & _). discriminate.
Qed.

Lemma _get_recovery_targets_eq cc self log :
  _get_recovery_targets cc self log =
    (recovery_targets_of cc (make_request cc (length log) "GET" (GET_ALL_RECOVERY_TARGETS cc)).1
                            (make_request cc (length log) "GET" (GET_ALL_RECOVERY_TARGETS cc)).2,
     self, log ++ [("GET", GET_ALL_RECOVERY_TARGETS cc)]).
Proof.
  unfold _get_recovery_targets, request, mbind, M_bind, lift.
  destruct (make_request cc (length log) "GET" (GET_ALL_RECOVERY_TARGETS cc)); reflexivity.
Qed.

(** C1.  A successful list response whose body has the key
    ['recoveryTargets'], over records with [applicationType], [name] and
    [id], makes [_get_recovery_targets] return a dictionary [d] such
    that: every entry of [d] is the lower-cased name and the [str] of the
    id of a record whose [applicationType] is not ["CLEAN_ROOM"]; every
    such record has its lower-cased name as a key of [d], with the [str]
    of its own id as value unless a later such record has the same
    lower-cased name; and a key that is the lower-cased name of no such
    record is absent, so that a ["CLEAN_ROOM"] record adds nothing. *)
Theorem load_builds_catalog cc self log response items records :
  make_request cc (length log) "GET" (GET_ALL_RECOVERY_TARGETS cc) = (true, response) ->
  json_ response = JObj items ->
  dict_lookup "recoveryTargets" items = Some (JList records) ->
  Forall (fun r => is_Some (record_fields r)) records ->
  exists d,
    _get_recovery_targets cc self log =
      (Ok d, self, log ++ [("GET", GET_ALL_RECOVERY_TARGETS cc)]) /\
    (forall k v, d !! k = Some v ->
       exists r applicationType name target_id,
         r ∈ records /\ record_fields r = Some (applicationType, name, target_id) /\
         is_str "CLEAN_ROOM" applicationType = false /\
         k = lower name /\ v = py_str target_id) /\
    (forall pre r post applicationType name target_id,
       records = pre ++ r :: post ->
       record_fields r = Some (applicationType, name, target_id) ->
       is_str "CLEAN_ROOM" applicationType = false ->
       is_Some (d !! lower name) /\
       (Forall (fun r' => listed_as (lower name) r' = None) post ->
        d !! lower name = Some (py_str target_id))) /\
    (forall k, Forall (fun r => listed_as k r = None) records -> d !! k = None).
Proof.
  intros Hreq Hbody Hkey Hwf.
  destruct (add_recovery_targets_listed records ∅ Hwf) as (d & Hd & Hlook).
  exists d. split; [|split; [|split]].
  - rewrite _get_recovery_targets_eq, Hreq. simpl.
    assert (Htruthy : truthy (JObj items) = true)
      by (destruct items; [discriminate|reflexivity]).
    unfold recovery_targets_of. rewrite Hbody, Htruthy. simpl.
    rewrite bool_decide_eq_true_2 by (rewrite Hkey; eauto).
    rewrite Hkey. simpl. rewrite Hd. reflexivity.
  - intros k v Hkv. rewrite Hlook in Hkv.
    destruct (last_listed k records) as [i|] eqn:Hlast.
    + apply last_listed_Some in Hlast as (pre & r & post & -> & Hr & _).
      apply listed_as_inv in Hr as (app & name & Hr & Hclean & <-).
      exists r, app, name, i. injection Hkv as <-.
      split; [set_solver|]. auto.
    + rewrite lookup_empty in Hkv. discriminate.
  - intros pre r post app name i -> Hr Hclean.
    assert (Hlisted : listed_as (lower name) r = Some i)
      by (apply listed_as_inv; eauto).
    split.
    + rewrite Hlook.
      destruct (last_listed (lower name) (pre ++ r :: post)) eqn:Hlast; [eauto|].
      apply last_listed_None in Hlast.
      apply Forall_app in Hlast as [_ Hlast].
      apply Forall_cons in Hlast as [Hlast _]. congruence.
    + intros Hpost. rewrite Hlook, (last_listed_app _ _ _ _ Hpost), Hlisted.
      reflexivity.
  - intros k Hnone. rewrite Hlook.
    apply last_listed_None in Hnone. rewrite Hnone. apply lookup_empty.
Qed.

(** ** Which exceptions the field extraction can raise

    The operations on JSON values raise built-in errors only; an
    [SDKException] is raised by the two [raise] statements of each load
    and by the two of the catalog lookups. *)

Create HintDb plain.

Lemma builtin_not_ResponseError e : builtin e -> ~ ResponseError e.
Proof. intros Hb (code & msg & ->). exact Hb. Qed.

Lemma plain_Ok {A} (a : A) : plain (Ok a).
Proof. intros e [=]. Qed.

Lemma plain_bind {A B} (r : result A) (k : A -> result B) :
  plain r -> (forall a, plain (k a)) -> plain (r ≫= k).
Proof.
  intros Hr Hk e. destruct r as [a|e']; simpl.
  - apply Hk.
  - intros [= <-]. by apply Hr.
Qed.

Lemma plain_py_get v k default : plain (py_get v k default).
Proof. intros e. destruct v; simpl; intros [= <-]; exact I. Qed.

Lemma plain_py_getitem v k : plain (py_getitem v k).
Proof.
  intros e. destruct v; simpl; try (intros [= <-]; exact I).
  destruct (dict_lookup k items); intros [= <-]; exact I.
Qed.

Lemma plain_py_first v : plain (py_first v).
Proof.
  intros e. destruct v as [| | |[|c s]|[|x l]|]; simpl; intros [= <-]; exact I.
Qed.

Lemma plain_py_in k v : plain (py_in k v).
Proof. intros e. destruct v; simpl; intros [= <-]; exact I. Qed.

Lemma plain_py_iter v : plain (py_iter v).
Proof. intros e. destruct v; simpl; intros [= <-]; exact I. Qed.

Lemma plain_py_lower v : plain (py_lower v).
Proof. intros e. destruct v; simpl; intros [= <-]; exact I. Qed.

Lemma plain_str_of v : plain (str_of v).
Proof. intros e. destruct v; simpl; intros [= <-]; exact I. Qed.

#[local] Hint Resolve plain_Ok plain_py_get plain_py_getitem plain_py_first
  plain_py_in plain_py_iter plain_py_lower plain_str_of : plain.

Lemma plain_chain path : forall v, plain (chain v path).
Proof.
  induction path as [|[k default] rest IH]; intros v; simpl.
  - apply plain_Ok.
  - apply plain_bind; auto with plain.
Qed.

Lemma plain_first_of props path : plain (first_of props path).
Proof. apply plain_bind; [apply plain_chain|auto with plain]. Qed.

Lemma plain_iso_paths isos : plain (iso_paths isos).
Proof.
  induction isos as [|iso rest IH]; simpl; [apply plain_Ok|].
  apply plain_bind; [auto with plain|]. intros p.
  apply plain_bind; [exact IH|]. intros ps. apply plain_Ok.
Qed.

#[local] Hint Resolve plain_chain plain_first_of plain_iso_paths : plain.

Lemma plainM_ret {S A} (a : A) : plainM (S := S) (mret a).
Proof. intros self log e self' log' [=]. Qed.

Lemma plainM_bind {S A B} (m : M S A) (k : A -> M S B) :
  plainM m -> (forall a, plainM (k a)) -> plainM (m ≫= k).
Proof.
  intros Hm Hk self log e self' log'. unfold mbind, M_bind.
  destruct (m self log) as [[[a|e'] s1] l1] eqn:E.
  - apply Hk.
  - intros [= <- <- <-]. eapply Hm, E.
Qed.

Lemma plainM_lift {S A} (r : result A) : plain r -> plainM (S := S) (lift r).
Proof. intros Hr self log e self' log' [= H _ _]. by apply Hr. Qed.

Lemma plainM_assign {S} (f : S -> S) : plainM (assign f).
Proof. intros self log e self' log' [=]. Qed.

Lemma plainM_gets {S A} (f : S -> A) : plainM (gets f).
Proof. intros self log e self' log' [=]. Qed.

Lemma plainM_raise {S A} e : builtin e -> plainM (S := S) (A := A) (raise e).
Proof. intros He self log e' self' log' [= <- _ _]. exact He. Qed.

Lemma plainM_setattr name v : plainM (setattr name v).
Proof. apply plainM_assign. Qed.

Lemma plainM_getattr name : plainM (getattr name).
Proof.
  apply plainM_bind; [apply plainM_gets|]. intros [v|].
  - apply plainM_ret.
  - by apply plainM_raise.
Qed.

Lemma plainM_setattr_from name r : plain r -> plainM (setattr_from name r).
Proof.
  intros Hr. apply plainM_bind; [by apply plainM_lift|].
  intros v. apply plainM_setattr.
Qed.

#[local] Hint Resolve plainM_ret plainM_lift plainM_assign plainM_gets
  plainM_setattr plainM_getattr plainM_setattr_from : plain.

(** One step of a straight-line method body. *)
Ltac plain_step :=
  first
    [ solve [auto with plain]
    | apply plainM_setattr_from
    | apply plainM_lift
    | apply plainM_bind; [|intros ?]
    | apply plain_bind; [|intros ?]
    | case_match ].

Lemma plainM_set_expiration_time props : plainM (set_expiration_time props).
Proof. unfold set_expiration_time. repeat plain_step. Qed.

#[local] Hint Resolve plainM_set_expiration_time : plain.

Lemma plainM_load_aws props : plainM (load_aws props).
Proof. unfold load_aws. repeat plain_step. Qed.

Lemma plainM_load_hyperv props : plainM (load_hyperv props).
Proof. unfold load_hyperv. repeat plain_step. Qed.

Lemma plainM_load_azure props : plainM (load_azure props).
Proof. unfold load_azure. repeat plain_step. Qed.

Lemma plainM_load_vmware props : plainM (load_vmware props).
Proof. unfold load_vmware. repeat plain_step. Qed.

#[local] Hint Resolve plainM_load_aws plainM_load_hyperv plainM_load_azure
  plainM_load_vmware : plain.

Lemma plainM_populate props : plainM (populate props).
Proof.
  unfold populate, load_common, _set_policy_type, doc_policy_type.
  repeat plain_step.
Qed.

Lemma plain_add_recovery_target r acc : plain (add_recovery_target r acc).
Proof. unfold add_recovery_target. repeat plain_step. Qed.

Lemma plain_add_recovery_targets records : forall acc,
  plain (add_recovery_targets records acc).
Proof.
  induction records as [|r rest IH]; intros acc; simpl.
  - apply plain_Ok.
  - apply plain_bind; [apply plain_add_recovery_target|]. intros d. apply IH.
Qed.

Lemma py_in_object k items :
  py_in k (JObj items) = Ok false <-> dict_lookup k items = None.
Proof.
  simpl. destruct (dict_lookup k items) as [v|].
  - rewrite bool_decide_eq_true_2 by eauto. split; discriminate.
  - rewrite bool_decide_eq_false_2 by (intros [? [=]]). tauto.
Qed.


(** C10.  A [refresh] of the catalog that raises leaves the cached
    dictionary as it was: the new dictionary is assigned only once
    [_get_recovery_targets] has returned it.  So [all_targets],
    [has_recovery_target] and [get] answer after the failed refresh what
    they answered before it. *)
Theorem refresh_atomic cc self log e self' log' :
  refresh cc self log = (Raise e, self', log') ->
  self' = self /\
  all_targets self' = all_targets self /\
  (forall name l, has_recovery_target name self' l = has_recovery_target name self l) /\
  (forall name l, get cc name self' l = get cc name self l).
Proof.
  unfold refresh, mbind, M_bind. rewrite _get_recovery_targets_eq.
  destruct (recovery_targets_of _ _ _) as [d|e0].
  - unfold assign. discriminate.
  - intros [= _ <- _]. auto.
Qed.

(** A refresh that returns replaces the whole dictionary. *)
Lemma refresh_replaces cc self log self' log' :
  refresh cc self log = (Ok (), self', log') ->
  exists d, _get_recovery_targets cc self log = (Ok d, self, log') /\
            self' = {| _recovery_targets := Some d |}.
Proof.
  unfold refresh, mbind, M_bind. rewrite _get_recovery_targets_eq.
  destruct (recovery_targets_of _ _ _) as [d|e0]; [|discriminate].
  unfold assign. intros [= <- <-]. eauto.
Qed.

(** ** The policy type *)

(** C3.  [_set_policy_type] on a string [s] sets the numeric policy
    type to 1 for ["AMAZON"], 2 for ["MICROSOFT"], 7 for
    ["AZURE_RESOURCE_MANAGER"], 13 for ["VMW_BACKUP_LABTEMPLATE"] and
    for ["VMW_LIVEMOUNT"], and -1 for every other string. *)
Theorem policy_type_table (s : string) (self : attrs) (log : requests) :
  _set_policy_type (JStr s) self log =
    (Ok (), <["_policy_type" := JNum (policy_type_code (JStr s))]> self, log) /\
  (s = "AMAZON" -> policy_type_code (JStr s) = 1%Z) /\
  (s = "MICROSOFT" -> policy_type_code (JStr s) = 2%Z) /\
  (s = "AZURE_RESOURCE_MANAGER" -> policy_type_code (JStr s) = 7%Z) /\
  (s = "VMW_BACKUP_LABTEMPLATE" \/ s = "VMW_LIVEMOUNT" ->
     policy_type_code (JStr s) = 13%Z) /\
  (s ∉ ["AMAZON"; "MICROSOFT"; "AZURE_RESOURCE_MANAGER";
        "VMW_BACKUP_LABTEMPLATE"; "VMW_LIVEMOUNT"] ->
     policy_type_code (JStr s) = (-1)%Z).
Proof.
  split; [reflexivity|].
  repeat split.
  - intros ->. reflexivity.
  - intros ->. reflexivity.
  - intros ->. reflexivity.
  - intros [-> | ->]; reflexivity.
  - intros Hnot. rewrite !not_elem_of_cons in Hnot.
    destruct Hnot as (H1 & H2 & H3 & H4 & H5 & _).
    unfold policy_type_code. simpl.
    apply String.eqb_neq in H1, H2, H3, H4, H5.
    rewrite H1, H2, H3, H4, H5. reflexivity.
Qed.

(** ** Which attributes a load assigns *)

Lemma preserves_ret {A} a (x : A) : preserves a (mret x).
Proof. intros self log. reflexivity. Qed.

Lemma preserves_raise {A} a e : preserves (A := A) a (raise e).
Proof. intros self log. reflexivity. Qed.

Lemma preserves_lift {A} a (r : result A) : preserves a (lift r).
Proof. intros self log. reflexivity. Qed.

Lemma preserves_gets {A} a (f : attrs -> A) : preserves a (gets f).
Proof. intros self log. reflexivity. Qed.

Lemma preserves_bind {A B} a (m : M attrs A) (k : A -> M attrs B) :
  preserves a m -> (forall x, preserves a (k x)) -> preserves a (m ≫= k).
Proof.
  intros Hm Hk self log. unfold mbind, M_bind.
  specialize (Hm self log).
  destruct (m self log) as [[[x|e] s1] l1]; simpl in *.
  - rewrite Hk. exact Hm.
  - exact Hm.
Qed.

Lemma preserves_getattr a name : preserves a (getattr name).
Proof.
  apply preserves_bind; [apply preserves_gets|].
  intros [v|]; [apply preserves_ret|apply preserves_raise].
Qed.

Lemma preserves_setattr a name v : a ≠ name -> preserves a (setattr name v).
Proof. intros Hne self log. simpl. by apply lookup_insert_ne. Qed.

Lemma preserves_setattr_from a name r : a ≠ name -> preserves a (setattr_from name r).
Proof.
  intros Hne. apply preserves_bind; [apply preserves_lift|].
  intros v. by apply preserves_setattr.
Qed.

Create HintDb frame.

#[local] Hint Resolve preserves_ret preserves_raise preserves_lift preserves_gets
  preserves_getattr preserves_setattr preserves_setattr_from : frame.

(** From [a ∉ [n1; ...; nk]] to the hypotheses [a ≠ n1], ..., [a ≠ nk]. *)
Ltac outside H :=
  rewrite ?not_elem_of_cons in H;
  repeat match type of H with
         | _ /\ _ => let H1 := fresh "Hne" in destruct H as [H1 H]
         end;
  clear H.

Ltac frame_step :=
  first
    [ solve [auto with frame]
    | apply preserves_bind; [|intros ?]
    | case_match ].

Lemma preserves_set_expiration_time a props :
  a ≠ "_expiration_time" -> preserves a (set_expiration_time props).
Proof. intros Hne. unfold set_expiration_time. repeat frame_step. Qed.

#[local] Hint Resolve preserves_set_expiration_time : frame.

Lemma preserves_load_aws a props : a ∉ aws_attrs -> preserves a (load_aws props).
Proof. intros H. unfold aws_attrs in H. outside H. unfold load_aws. repeat frame_step. Qed.

Lemma preserves_load_hyperv a props : a ∉ hyperv_attrs -> preserves a (load_hyperv props).
Proof. intros H. unfold hyperv_attrs in H. outside H. unfold load_hyperv. repeat frame_step. Qed.

Lemma preserves_load_azure a props : a ∉ azure_attrs -> preserves a (load_azure props).
Proof. intros H. unfold azure_attrs in H. outside H. unfold load_azure. repeat frame_step. Qed.

Lemma preserves_load_vmware a props : a ∉ vmware_attrs -> preserves a (load_vmware props).
Proof. intros H. unfold vmware_attrs in H. outside H. unfold load_vmware. repeat frame_step. Qed.

Lemma preserves_load_common a props : a ∉ common_attrs -> preserves a (load_common props).
Proof.
  intros H. unfold common_attrs in H. outside H.
  unfold load_common. repeat frame_step.
Qed.

(** ** Running a method that returns *)

Lemma bind_Ok {S A B} (m : M S A) (k : A -> M S B) self log y self' log' :
  (m ≫= k) self log = (Ok y, self', log') ->
  exists x s1 l1, m self log = (Ok x, s1, l1) /\ k x s1 l1 = (Ok y, self', log').
Proof.
  unfold mbind, M_bind. destruct (m self log) as [[[x|e] s1] l1]; [|discriminate].
  eauto.
Qed.

Lemma lift_Ok {S A} (r : result A) (self : S) log x self' log' :
  lift r self log = (Ok x, self', log') -> r = Ok x /\ self' = self /\ log' = log.
Proof. intros [= -> <- <-]. auto. Qed.

Lemma setattr_Ok name v (self : attrs) log x self' log' :
  setattr name v self log = (Ok x, self', log') -> self' = <[name := v]> self /\ log' = log.
Proof. intros [= <- <-]. auto. Qed.

Lemma getattr_Ok name (self : attrs) log v self' log' :
  getattr name self log = (Ok v, self', log') ->
  self !! name = Some v /\ self' = self /\ log' = log.
Proof.
  unfold getattr, mbind, M_bind, gets. destruct (self !! name); [|discriminate].
  intros [= -> <- <-]. auto.
Qed.

Lemma setattr_from_Ok name r (self : attrs) log x self' log' :
  setattr_from name r self log = (Ok x, self', log') ->
  exists v, r = Ok v /\ self' = <[name := v]> self /\ log' = log.
Proof.
  unfold setattr_from, mbind, M_bind, lift. destruct r as [v|e]; [|discriminate].
  intros [= <- <-]. eauto.
Qed.

Lemma preserved {A} a (m : M attrs A) self log r self' log' :
  preserves a m -> m self log = (r, self', log') -> self' !! a = self !! a.
Proof. intros Hm E. specialize (Hm self log). rewrite E in Hm. exact Hm. Qed.

Lemma policy_type_code_cases v :
  policy_type_code v ∈ [1; 2; 7; 13; -1]%Z.
Proof.
  unfold policy_type_code. repeat case_match; set_solver.
Qed.

(** ** Which methods send a request *)

Lemma silent_ret {S A} (x : A) : silent (S := S) (mret x).
Proof. intros self log. reflexivity. Qed.

Lemma silent_raise {S A} e : silent (S := S) (A := A) (raise e).
Proof. intros self log. reflexivity. Qed.

Lemma silent_lift {S A} (r : result A) : silent (S := S) (lift r).
Proof. intros self log. reflexivity. Qed.

Lemma silent_gets {S A} (f : S -> A) : silent (gets f).
Proof. intros self log. reflexivity. Qed.

Lemma silent_assign {S} (f : S -> S) : silent (assign f).
Proof. intros self log. reflexivity. Qed.

Lemma silent_bind {S A B} (m : M S A) (k : A -> M S B) :
  silent m -> (forall x, silent (k x)) -> silent (m ≫= k).
Proof.
  intros Hm Hk self log. unfold mbind, M_bind.
  specialize (Hm self log).
  destruct (m self log) as [[[x|e] s1] l1]; simpl in *.
  - rewrite Hk. exact Hm.
  - exact Hm.
Qed.

Lemma silent_setattr name v : silent (setattr name v).
Proof. apply silent_assign. Qed.

Lemma silent_getattr name : silent (getattr name).
Proof.
  apply silent_bind; [apply silent_gets|].
  intros [v|]; [apply silent_ret|apply silent_raise].
Qed.

Lemma silent_setattr_from name r : silent (setattr_from name r).
Proof.
  apply silent_bind; [apply silent_lift|]. intros v. apply silent_setattr.
Qed.

Create HintDb silent.

#[local] Hint Resolve silent_ret silent_raise silent_lift silent_gets silent_assign
  silent_setattr silent_getattr silent_setattr_from : silent.

Ltac silent_step :=
  first
    [ solve [auto with silent]
    | apply silent_bind; [|intros ?]
    | case_match ].

Lemma silent_populate props : silent (populate props).
Proof.
  unfold populate, load_common, _set_policy_type, load_aws, load_hyperv,
    load_azure, load_vmware, set_expiration_time.
  repeat silent_step.
Qed.

#[local] Hint Resolve silent_populate : silent.

Lemma silent_load_properties cc flag response :
  silent (load_properties cc flag response).
Proof. unfold load_properties. repeat silent_step. Qed.

Lemma silent_set_all l : silent (set_all l).
Proof.
  induction l as [|[name v] rest IH]; simpl; [apply silent_ret|].
  apply silent_bind; [apply silent_setattr|]. intros _. exact IH.
Qed.

Lemma silent_has_recovery_target name : silent (has_recovery_target name).
Proof. unfold has_recovery_target. repeat silent_step. Qed.

(** ** The expiration time *)

Lemma chain_retain key props h :
  chain props [("liveMountOptions", EMPTY_DICT); ("expirationTime", EMPTY_DICT);
               (key, JStr "")] = Ok h ->
  h = from_option id (JStr "") (retain_until key props).
Proof.
  destruct props as [| | | | |items]; try discriminate.
  simpl. destruct (dict_lookup "liveMountOptions" items) as [[| | | | |options]|];
    simpl; try discriminate.
  - destruct (dict_lookup "expirationTime" options) as [[| | | | |expiration]|];
      simpl; try discriminate.
    + intros [= <-]. reflexivity.
    + intros [= <-]. reflexivity.
  - intros [= <-]. reflexivity.
Qed.

Lemma truthy_default o :
  truthy (from_option id (JStr "") o) = true ->
  present_and_truthy o = Some (from_option id (JStr "") o).
Proof. destruct o as [v|]; simpl; [|discriminate]. intros ->. reflexivity. Qed.

Lemma falsy_default o :
  truthy (from_option id (JStr "") o) = false -> present_and_truthy o = None.
Proof. destruct o as [v|]; simpl; [|reflexivity]. intros ->. reflexivity. Qed.

Lemma set_expiration_time_Ok props self log x self' log' :
  set_expiration_time props self log = (Ok x, self', log') ->
  log' = log /\
  self' = match rendered_expiration props with
          | Some t => <["_expiration_time" := JStr t]> self
          | None => self
          end.
Proof.
  unfold set_expiration_time. intros H.
  apply bind_Ok in H as (hours & s1 & l1 & Hh & H).
  apply lift_Ok in Hh as (Hh & -> & ->).
  apply bind_Ok in H as (days & s1 & l1 & Hd & H).
  apply lift_Ok in Hd as (Hd & -> & ->).
  apply chain_retain in Hh, Hd. subst hours days.
  unfold rendered_expiration.
  destruct (truthy (from_option id (JStr "") (retain_until "minutesRetainUntil" props)))
    eqn:Hhours.
  - rewrite (truthy_default _ Hhours). apply setattr_Ok in H as [-> ->]. auto.
  - rewrite (falsy_default _ Hhours).
    destruct (truthy (from_option id (JStr "") (retain_until "daysRetainUntil" props)))
      eqn:Hdays.
    + rewrite (truthy_default _ Hdays). apply setattr_Ok in H as [-> ->]. auto.
    + rewrite (falsy_default _ Hdays). injection H as <- <-. auto.
Qed.

#[local] Hint Extern 1 (_ ≠ _) => discriminate : frame.

(** The assignments before the expiration time, one at a time. *)
Ltac run H :=
  repeat match type of H with
         | (setattr_from _ _ ≫= _) _ _ = (Ok _, _, _) =>
             let Hs := fresh "Hstep" in
             apply bind_Ok in H as (? & ? & ? & Hs & H);
             apply setattr_from_Ok in Hs as (? & _ & -> & ->)
         end.

Ltac expiration_after H :=
  let Hs := fresh "Hexp" in
  apply bind_Ok in H as (? & ? & ? & Hs & H);
  apply set_expiration_time_Ok in Hs as [-> ->];
  match type of H with
  | ?rest _ _ = _ =>
      let Hrest := fresh "Hrest" in
      assert (Hrest : preserves "_expiration_time" rest)
        by (repeat frame_step);
      rewrite (preserved _ _ _ _ _ _ _ Hrest H)
  end;
  destruct (rendered_expiration _);
    [apply lookup_insert_eq | rewrite ?lookup_insert_ne by discriminate; reflexivity].

Lemma load_aws_expiration props self log self' log' :
  load_aws props self log = (Ok (), self', log') ->
  self' !! "_expiration_time" =
    match rendered_expiration props with
    | Some t => Some (JStr t)
    | None => self !! "_expiration_time"
    end.
Proof. unfold load_aws. intros H. run H. expiration_after H. Qed.

Lemma load_azure_expiration props self log self' log' :
  load_azure props self log = (Ok (), self', log') ->
  self' !! "_expiration_time" =
    match rendered_expiration props with
    | Some t => Some (JStr t)
    | None => self !! "_expiration_time"
    end.
Proof. unfold load_azure. intros H. run H. expiration_after H. Qed.

Lemma load_vmware_expiration props self log self' log' :
  load_vmware props self log = (Ok (), self', log') ->
  self' !! "_expiration_time" =
    match rendered_expiration props with
    | Some t => Some (JStr t)
    | None => self !! "_expiration_time"
    end.
Proof. unfold load_vmware. intros H. run H. expiration_after H. Qed.

(** ** A load that returns *)

Lemma populate_Ok props self log self' log' :
  populate props self log = (Ok (), self', log') ->
  exists policy_type,
    doc_policy_type props = Ok policy_type /\
    self' !! "_recovery_target_properties" = Some props /\
    self' !! "_policy_type" = Some (JNum (policy_type_code policy_type)) /\
    (forall a, a ∉ common_attrs -> a ∉ group (policy_type_code policy_type) ->
       self' !! a = self !! a) /\
    (policy_type_code policy_type ∈ [1; 7; 13]%Z ->
       self' !! "_expiration_time" =
         match rendered_expiration props with
         | Some t => Some (JStr t)
         | None => self !! "_expiration_time"
         end).
Proof.
  unfold populate. intros H.
  apply bind_Ok in H as ([] & s1 & l1 & Hcommon & H).
  apply bind_Ok in H as (pt & s2 & l2 & Hpt & H).
  apply lift_Ok in Hpt as (Hpt & -> & ->).
  apply bind_Ok in H as ([] & s2 & l2 & Hset & H).
  apply setattr_Ok in Hset as [-> ->].
  apply bind_Ok in H as (code & s3 & l3 & Hcode & H).
  apply getattr_Ok in Hcode as (Hcode & -> & ->).
  rewrite lookup_insert_eq in Hcode. injection Hcode as <-.
  exists pt. split; [exact Hpt|].
  assert (Hprops : s1 !! "_recovery_target_properties" = Some props).
  { revert Hcommon. unfold load_common. intros Hc.
    apply bind_Ok in Hc as ([] & s0 & l0 & Hfirst & Hc).
    apply setattr_Ok in Hfirst as [-> ->].
    match type of Hc with
    | ?rest _ _ = _ =>
        assert (Hrest : preserves "_recovery_target_properties" rest)
          by (repeat frame_step);
        rewrite (preserved _ _ _ _ _ _ _ Hrest Hc)
    end.
    apply lookup_insert_eq. }
  assert (Hframe : forall a, a ∉ common_attrs ->
            (<["_policy_type" := JNum (policy_type_code pt)]> s1) !! a = self !! a).
  { intros a Ha.
    rewrite lookup_insert_ne by (intros <-; apply Ha; unfold common_attrs; is_in).
    apply (preserved _ _ _ _ _ _ _ (preserves_load_common a props Ha) Hcommon). }
  assert (Hloader : forall (loader : json -> M attrs unit) attrs_of,
            group (policy_type_code pt) = attrs_of ->
            (forall a, a ∉ attrs_of -> preserves a (loader props)) ->
            "_recovery_target_properties" ∉ attrs_of ->
            "_policy_type" ∉ attrs_of ->
            loader props (<["_policy_type" := JNum (policy_type_code pt)]> s1) l1 =
              (Ok (), self', log') ->
            self' !! "_recovery_target_properties" = Some props /\
            self' !! "_policy_type" = Some (JNum (policy_type_code pt)) /\
            (forall a, a ∉ common_attrs -> a ∉ group (policy_type_code pt) ->
               self' !! a = self !! a)).
  { intros loader attrs_of Hgroup Hpres Hp1 Hp2 Hrun.
    split; [|split].
    - rewrite (preserved _ _ _ _ _ _ _ (Hpres _ Hp1) Hrun).
      rewrite lookup_insert_ne by discriminate. exact Hprops.
    - rewrite (preserved _ _ _ _ _ _ _ (Hpres _ Hp2) Hrun).
      apply lookup_insert_eq.
    - intros a Hc Hg. rewrite Hgroup in Hg.
      rewrite (preserved _ _ _ _ _ _ _ (Hpres _ Hg) Hrun). by apply Hframe. }
  assert (Hexp0 : (<["_policy_type" := JNum (policy_type_code pt)]> s1) !! "_expiration_time"
                  = self !! "_expiration_time").
  { apply Hframe. unfold common_attrs. not_in. }
  pose proof (policy_type_code_cases pt) as Hcases.
  rewrite !elem_of_cons in Hcases.
  destruct Hcases as [Hc|[Hc|[Hc|[Hc|[Hc|Hc]]]]]; [..|by apply elem_of_nil in Hc];
    rewrite Hc in H, Hloader, Hexp0, Hframe |- *.
  - destruct (Hloader load_aws aws_attrs eq_refl) as (H1 & H2 & H3);
      [intros a Ha; by apply preserves_load_aws|unfold aws_attrs; not_in..|exact H|].
    split; [exact H1|]. split; [exact H2|]. split; [exact H3|]. intros _.
    rewrite (load_aws_expiration _ _ _ _ _ H). by rewrite Hexp0.
  - destruct (Hloader load_hyperv hyperv_attrs eq_refl) as (H1 & H2 & H3);
      [intros a Ha; by apply preserves_load_hyperv|unfold hyperv_attrs; not_in..|exact H|].
    split; [exact H1|]. split; [exact H2|]. split; [exact H3|]. intros Hin.
    exfalso. revert Hin. not_in.
  - destruct (Hloader load_azure azure_attrs eq_refl) as (H1 & H2 & H3);
      [intros a Ha; by apply preserves_load_azure|unfold azure_attrs; not_in..|exact H|].
    split; [exact H1|]. split; [exact H2|]. split; [exact H3|]. intros _.
    rewrite (load_azure_expiration _ _ _ _ _ H). by rewrite Hexp0.
  - destruct (Hloader load_vmware vmware_attrs eq_refl) as (H1 & H2 & H3);
      [intros a Ha; by apply preserves_load_vmware|unfold vmware_attrs; not_in..|exact H|].
    split; [exact H1|]. split; [exact H2|]. split; [exact H3|]. intros _.
    rewrite (load_vmware_expiration _ _ _ _ _ H). by rewrite Hexp0.
  - injection H as <- <-.
    split; [|split; [|split]].
    + rewrite lookup_insert_ne by discriminate. exact Hprops.
    + apply lookup_insert_eq.
    + intros a Ha _. by apply Hframe.
    + intros Hin. exfalso. revert Hin. not_in.
Qed.

(** ** The constructor *)

Lemma set_all_run l : forall self log,
  NoDup l.*1 -> set_all l self log = (Ok (), list_to_map l ∪ self, log).
Proof.
  induction l as [|[name v] rest IH]; intros self log Hnodup.
  - simpl. by rewrite (left_id_L ∅ (∪)).
  - apply NoDup_cons in Hnodup as [Hname Hrest].
    change (set_all ((name, v) :: rest) self log)
      with (set_all rest (<[name := v]> self) log).
    rewrite (IH _ _ Hrest). simpl.
    rewrite <- insert_union_l, <- insert_union_r; [reflexivity|].
    by apply not_elem_of_list_to_map_1.
Qed.

Lemma NoDup_defaults : NoDup defaults.*1.
Proof.
  simpl. repeat (apply NoDup_cons; split; [not_in|]). apply NoDup_nil. exact I.
Qed.

Lemma before_refresh_unset name target_id url a :
  a ∉ ["_recovery_target_name"; "_recovery_target_id"; "_RECOVERY_TARGET_API"] ->
  before_refresh name target_id url !! a = unset a.
Proof.
  intros Ha. outside Ha. unfold before_refresh, unset.
  apply lookup_union_l.
  rewrite !lookup_insert_ne by congruence. apply lookup_empty.
Qed.

Lemma before_refresh_api name target_id url :
  before_refresh name target_id url !! "_RECOVERY_TARGET_API" = Some (JStr url).
Proof.
  unfold before_refresh. rewrite lookup_union_r.
  - apply lookup_insert_eq.
  - apply not_elem_of_list_to_map_1. simpl. not_in.
Qed.

Lemma refresh_run cc name target_id url log :
  RecoveryTarget_refresh cc (before_refresh name target_id url) log =
    load_properties cc (make_request cc (length log) "GET" url).1
                       (make_request cc (length log) "GET" url).2
      (before_refresh name target_id url) (log ++ [("GET", url)]).
Proof.
  unfold RecoveryTarget_refresh, _get_recovery_target_properties.
  unfold mbind at 1, M_bind at 1, getattr.
  unfold mbind at 1, M_bind at 1, gets.
  rewrite before_refresh_api.
  unfold mret, M_ret, mbind, M_bind, lift, request. simpl.
  destruct (make_request cc (length log) "GET" url). reflexivity.
Qed.

Lemma _get_recovery_target_id_self cc self log :
  (_get_recovery_target_id cc self log).1.2 = self.
Proof.
  unfold _get_recovery_target_id, mbind, M_bind, new_RecoveryTargets, new, getattr,
    gets, mbind, M_bind.
  destruct (RecoveryTargets__init__ cc _ log) as [[[[]|e] target] l1]; [|reflexivity].
  destruct (self !! "_recovery_target_name"); [|reflexivity].
  simpl. destruct (all_targets target); reflexivity.
Qed.

#[local] Arguments set_all : simpl never.

(** What [__init__] comes to: the id, given or looked up, then the
    defaults, then the load of the detail document. *)
Lemma init_run cc name recovery_target_id log :
  RecoveryTarget__init__ cc (JStr name) recovery_target_id ∅ log =
    match (if truthy recovery_target_id
           then (Ok (py_str recovery_target_id),
                 <["_recovery_target_name" := JStr (lower name)]> ∅, log)
           else _get_recovery_target_id cc
                  (<["_recovery_target_name" := JStr (lower name)]> ∅) log)
    with
    | (Ok target_id, _, log1) =>
        RecoveryTarget_refresh cc
          (before_refresh (lower name) target_id (GET_RECOVERY_TARGET cc target_id)) log1
    | (Raise e, self1, log1) => (Raise e, self1, log1)
    end.
Proof.
  unfold RecoveryTarget__init__.
  unfold mbind at 1, M_bind at 1. simpl.
  unfold mbind at 1, M_bind at 1. simpl.
  unfold mbind at 1, M_bind at 1.
  assert (Hself : forall l, (_get_recovery_target_id cc
            (<["_recovery_target_name" := JStr (lower name)]> ∅) l).1.2 =
            <["_recovery_target_name" := JStr (lower name)]> ∅)
    by (intros; apply _get_recovery_target_id_self).
  destruct (truthy recovery_target_id).
  - unfold mret, M_ret.
    unfold mbind at 1, M_bind at 1. simpl.
    unfold mbind at 1, M_bind at 1. simpl.
    unfold mbind at 1, M_bind at 1.
    rewrite (set_all_run _ _ _ NoDup_defaults). reflexivity.
  - specialize (Hself log).
    destruct (_get_recovery_target_id cc _ log) as [[[target_id|e] s1] l1];
      [|reflexivity].
    simpl in Hself. subst s1.
    unfold mbind at 1, M_bind at 1. simpl.
    unfold mbind at 1, M_bind at 1. simpl.
    unfold mbind at 1, M_bind at 1.
    rewrite (set_all_run _ _ _ NoDup_defaults). reflexivity.
Qed.

Lemma load_properties_Ok cc flag response self log self' log' :
  load_properties cc flag response self log = (Ok (), self', log') ->
  populate (json_ response) self log = (Ok (), self', log').
Proof.
  unfold load_properties. destruct flag; [|discriminate].
  destruct (truthy (json_ response)); [|discriminate].
  intros H. apply bind_Ok in H as (found & s1 & l1 & Hfound & H).
  apply lift_Ok in Hfound as (_ & -> & ->).
  destruct found; [exact H|discriminate].
Qed.

(** A constructor that returns has run the load of a document on the
    object of the defaults. *)
Lemma new_RecoveryTarget_Ok {S} cc name recovery_target_id (self : S) log obj self' log' :
  new_RecoveryTarget cc name recovery_target_id self log = (Ok obj, self', log') ->
  exists n target_id url props log0,
    populate props (before_refresh n target_id url) log0 = (Ok (), obj, log').
Proof.
  unfold new_RecoveryTarget, new.
  destruct (RecoveryTarget__init__ cc name recovery_target_id ∅ log)
    as [[[[]|e] o] l] eqn:E; [|discriminate].
  intros [= <- <- <-].
  destruct name as [| | |n| |];
    try (unfold RecoveryTarget__init__ in E; unfold mbind at 1, M_bind at 1 in E;
         simpl in E; discriminate).
  rewrite init_run in E.
  destruct (if truthy recovery_target_id then _ else _) as [[[target_id|e] s1] l1];
    [|discriminate].
  rewrite refresh_run in E. apply load_properties_Ok in E. eauto 10.
Qed.

Lemma variant_attrs_fresh :
  Forall (fun a => (a ∉ common_attrs) /\
                   (a ∉ ["_recovery_target_name"; "_recovery_target_id";
                         "_RECOVERY_TARGET_API"])) variant_attrs.
Proof.
  unfold variant_attrs, aws_attrs, hyperv_attrs, azure_attrs, vmware_attrs, common_attrs.
  simpl. repeat (apply Forall_cons; split; [split; not_in|]). apply Forall_nil. exact I.
Qed.

Lemma read_property_attr prop attr (self : attrs) :
  (prop, attr) ∈ properties ->
  read_property prop self =
    match self !! attr with
    | Some v => Ok v
    | None => Raise AttributeError
    end.
Proof.
  intros Hin. unfold read_property.
  replace (list_to_map (M := gmap string string) properties !! prop) with (Some attr);
    [reflexivity|].
  symmetry. apply elem_of_list_to_map_1; [|exact Hin].
  simpl. repeat (apply NoDup_cons; split; [not_in|]). apply NoDup_nil. exact I.
Qed.

(** ** Looking a target up in the catalog *)

Lemma lower_ascii_idemp c : lower_ascii (lower_ascii c) = lower_ascii c.
Proof. destruct c as [[] [] [] [] [] [] [] []]; reflexivity. Qed.

Lemma ascii_lower_idemp s : ascii_lower (ascii_lower s) = ascii_lower s.
Proof.
  induction s as [|c s IH]; [reflexivity|].
  simpl. by rewrite lower_ascii_idemp, IH.
Qed.

Lemma isascii_lower_ascii c :
  (Ascii.N_of_ascii c <? 128)%N = true ->
  (Ascii.N_of_ascii (lower_ascii c) <? 128)%N = true.
Proof. destruct c as [[] [] [] [] [] [] [] []]; vm_compute; auto. Qed.

Lemma isascii_ascii_lower s : isascii s = true -> isascii (ascii_lower s) = true.
Proof.
  induction s as [|c s IH]; [reflexivity|].
  simpl. intros [Hc Hs]%andb_true_iff.
  by rewrite (isascii_lower_ascii c Hc), (IH Hs).
Qed.

(** Lower-casing an ASCII name a second time changes nothing. *)
Lemma lower_stable_ascii s : isascii s = true -> lower (lower s) = lower s.
Proof.
  intros Hs. unfold lower. rewrite Hs, (isascii_ascii_lower s Hs).
  apply ascii_lower_idemp.
Qed.

(** With an id that is given (true), the constructor sends one request:
    the detail request for that id. *)
Lemma new_RecoveryTarget_log {S} cc name recovery_target_id (self : S) log :
  truthy recovery_target_id = true ->
  (new_RecoveryTarget cc (JStr name) recovery_target_id self log).2 =
    log ++ [("GET", GET_RECOVERY_TARGET cc (py_str recovery_target_id))].
Proof.
  intros Hgiven. unfold new_RecoveryTarget, new.
  rewrite init_run, Hgiven, refresh_run.
  pose proof (silent_load_properties cc
    (make_request cc (length log) "GET"
       (GET_RECOVERY_TARGET cc (py_str recovery_target_id))).1
    (make_request cc (length log) "GET"
       (GET_RECOVERY_TARGET cc (py_str recovery_target_id))).2
    (before_refresh (lower name) (py_str recovery_target_id)
       (GET_RECOVERY_TARGET cc (py_str recovery_target_id)))
    (log ++ [("GET", GET_RECOVERY_TARGET cc (py_str recovery_target_id))])) as Hsilent.
  destruct (load_properties _ _ _ _ _) as [[[[]|e] o] l]; exact Hsilent.
Qed.

(** C5, as the code has it.  [get] on an input that is not a string
    raises [InvalidInputError]; on a string whose lower case is no key
    of the cached dictionary it raises [NotFoundError] with the
    lower-cased name; on a string whose lower case is a key it is the
    constructor on the lower-cased name and the stored id, and when that
    id is not the empty string the only request sent is the detail
    request for it.  [get] lower-cases the name and [has_recovery_target]
    lower-cases it again: the name is one whose lower case [lower()]
    leaves as it is, as it does every ASCII name
    ([lower_stable_ascii]). *)
Theorem get_by_name cc v self log :
  (forall s, v = JStr s -> lower (lower s) = lower s) ->
  match v with
  | JStr s =>
      match all_targets self ≫= (fun d => d !! lower s) with
      | Some target_id =>
          get cc v self log =
            new_RecoveryTarget cc (JStr (lower s)) (JStr target_id) self log /\
          (target_id ≠ "" ->
           (get cc v self log).2 = log ++ [("GET", GET_RECOVERY_TARGET cc target_id)])
      | None => get cc v self log = (Raise (NotFoundError (lower s)), self, log)
      end
  | _ => get cc v self log = (Raise InvalidInputError, self, log)
  end.
Proof.
  intros Hstable. destruct v as [| | |s| |]; try reflexivity.
  specialize (Hstable s eq_refl).
  assert (Hget : get cc (JStr s) self log =
            match all_targets self ≫= (fun d => d !! lower s) with
            | Some target_id =>
                new_RecoveryTarget cc (JStr (lower s)) (JStr target_id) self log
            | None => (Raise (NotFoundError (lower s)), self, log)
            end).
  { unfold get, has_recovery_target, all_targets.
    unfold mbind at 1, M_bind at 1. unfold mbind at 1, M_bind at 1. unfold gets at 1.
    rewrite Hstable.
    destruct (_recovery_targets self) as [d|] eqn:Hd; [|reflexivity].
    simpl. destruct (bool_decide (d = ∅)) eqn:Hempty.
    - apply bool_decide_eq_true in Hempty. subst d. rewrite lookup_empty. reflexivity.
    - unfold mret, M_ret. simpl.
      destruct (d !! lower s) as [target_id|] eqn:Hkey.
      + rewrite bool_decide_eq_true_2 by eauto. simpl.
        unfold mbind at 1, M_bind at 1, gets at 1, all_targets. rewrite Hd.
        unfold mbind at 1, M_bind at 1, lift. simpl. rewrite Hkey. reflexivity.
      + rewrite bool_decide_eq_false_2 by (intros [? [=]]). reflexivity. }
  rewrite Hget.
  destruct (all_targets self ≫= (fun d => d !! lower s)) as [target_id|];
    [|reflexivity].
  split; [reflexivity|].
  intros Hid. apply (new_RecoveryTarget_log cc (lower s) (JStr target_id)).
  simpl. by apply negb_true_iff, String.eqb_neq.
Qed.

(** ** Where the code leaves the specification *)

(** C6.  A target constructed with a name and no id loads a catalog of
    its own; when the name is not in it, the lookup
    [target.all_targets[name]] ends the construction with a [KeyError],
    which is not the [NotFoundError] that [get] raises for a missing
    name. *)
Theorem missing_name_KeyError :
  new_RecoveryTarget (scripted [ok_response list_body]) (JStr "Missing") JNull () [] =
    (Raise KeyError, (), [("GET", "/recoveryTargets")]) /\
  get (scripted [ok_response list_body]) (JStr "Missing") loaded_catalog [] =
    (Raise (NotFoundError "missing"), loaded_catalog, []) /\
  KeyError ≠ NotFoundError "missing".
Proof.
  split; [vm_compute; reflexivity|]. split; [vm_compute; reflexivity|].
  discriminate.
Qed.

(** C7.  The load of a detail document that has the key ['entity']
    raises on a missing key and on an empty list: a Hyper-V document
    without [networkNames] ends with a [TypeError] (the first element of
    [None]), one with an empty [networkNames] with an [IndexError], and
    an AWS document with an empty [securityGroups] or an empty
    [instanceTypes] with an [IndexError]. *)
Theorem missing_nested_keys_raise :
  new_RecoveryTarget (scripted [ok_response hyperv_body]) (JStr "t") (JStr "3") () [] =
    (Raise TypeError, (), [("GET", "/recoveryTargets/3")]) /\
  new_RecoveryTarget (scripted [ok_response hyperv_no_network_body])
    (JStr "t") (JStr "3") () [] =
    (Raise IndexError, (), [("GET", "/recoveryTargets/3")]) /\
  new_RecoveryTarget (scripted [ok_response aws_no_security_group_body])
    (JStr "t") (JStr "3") () [] =
    (Raise IndexError, (), [("GET", "/recoveryTargets/3")]) /\
  new_RecoveryTarget (scripted [ok_response aws_no_instance_type_body])
    (JStr "t") (JStr "3") () [] =
    (Raise IndexError, (), [("GET", "/recoveryTargets/3")]).
Proof. split; [|split; [|split]]; vm_compute; reflexivity. Qed.

(** C8.  [__init__] never assigns [_server_group], and the load assigns
    it only for a VMware document with a true [associatedClientGroup]:
    on a constructed AWS target, and on a constructed VMware target
    whose document has no [associatedClientGroup], reading
    [server_group] raises [AttributeError]. *)
Theorem server_group_AttributeError :
  returns_with
    (new_RecoveryTarget (scripted [ok_response aws_body]) (JStr "Tgt1") (JStr "1") () [])
    (fun obj => server_group obj = Raise AttributeError) /\
  returns_with
    (new_RecoveryTarget (scripted [ok_response vmware_body]) (JStr "Tgt1") (JStr "1") () [])
    (fun obj => server_group obj = Raise AttributeError).
Proof. split; vm_compute; reflexivity. Qed.

(** ** A second load of the same document *)

Lemma replays_ret {A} W (x : A) : replays W (mret x).
Proof. intros s l u s1 l1 [= <- <- <-] t lt _. reflexivity. Qed.

Lemma replays_lift {A} W (r : result A) : replays W (lift r).
Proof.
  intros s l u s1 l1 H t lt _. apply lift_Ok in H as (-> & _ & _). reflexivity.
Qed.

Lemma replays_setattr name v : replays [name] (setattr name v).
Proof.
  intros s l [] s1 l1 H t lt Ht. apply setattr_Ok in H as [-> ->].
  unfold setattr, assign. rewrite insert_id; [reflexivity|].
  rewrite Ht by is_in. apply lookup_insert_eq.
Qed.

Lemma replays_getattr name : replays [name] (getattr name).
Proof.
  intros s l v s1 l1 H t lt Ht. apply getattr_Ok in H as (Hv & -> & ->).
  unfold getattr, mbind, M_bind, gets. rewrite Ht by is_in. rewrite Hv. reflexivity.
Qed.

Lemma replays_bind {A B} W1 W2 (m : M attrs A) (k : A -> M attrs B) :
  replays W1 m -> (forall x, replays W2 (k x)) ->
  (forall x a, a ∈ W1 -> preserves a (k x)) ->
  replays (W1 ++ W2) (m ≫= k).
Proof.
  intros Hm Hk Hpres s l u s2 l2 H t lt Ht.
  apply bind_Ok in H as (x & s1 & l1 & H1 & H2).
  unfold mbind, M_bind. rewrite (Hm _ _ _ _ _ H1 t lt).
  - apply (Hk x _ _ _ _ _ H2). intros a Ha. apply Ht, elem_of_app. by right.
  - intros a Ha. rewrite Ht by (apply elem_of_app; by left).
    apply (preserved _ _ _ _ _ _ _ (Hpres x a Ha) H2).
Qed.

Lemma replays_weaken {A} W W' (m : M attrs A) :
  replays W m -> (forall a, a ∈ W -> a ∈ W') -> replays W' m.
Proof. intros Hm Hsub s l u s1 l1 H t lt Ht. apply (Hm _ _ _ _ _ H). auto. Qed.

Lemma replays_setattr_from name r : replays [name] (setattr_from name r).
Proof.
  apply (replays_weaken ([] ++ [name])); [|auto].
  apply replays_bind.
  - apply replays_lift.
  - intros v. apply replays_setattr.
  - intros v a Ha. by apply elem_of_nil in Ha.
Qed.

(** The side condition of [replays_bind]: what was assigned so far is
    not assigned again by the rest. *)
Ltac later_preserves :=
  let a := fresh "a" in
  let Ha := fresh "Ha" in
  intros ? a Ha;
  repeat (apply elem_of_cons in Ha as [->|Ha]; [repeat frame_step|]);
  by apply elem_of_nil in Ha.

Ltac included :=
  let a := fresh "a" in
  let Ha := fresh "Ha" in
  intros a Ha; simpl in Ha;
  repeat (apply elem_of_cons in Ha as [->|Ha]; [is_in|]);
  by apply elem_of_nil in Ha.

Lemma replays_set_expiration_time props :
  replays ["_expiration_time"] (set_expiration_time props).
Proof.
  unfold set_expiration_time.
  eapply replays_weaken.
  - eapply replays_bind; [apply (replays_lift []) | intros hours | later_preserves].
    eapply replays_bind; [apply (replays_lift []) | intros days | later_preserves].
    instantiate (1 := ["_expiration_time"]).
    destruct (truthy hours); [apply replays_setattr|].
    destruct (truthy days); [apply replays_setattr|].
    apply replays_ret.
  - included.
Qed.

Lemma replays_if {A} W (c : bool) (m1 m2 : M attrs A) :
  replays W m1 -> replays W m2 -> replays W (if c then m1 else m2).
Proof. by destruct c. Qed.

#[local] Hint Resolve preserves_load_aws preserves_load_hyperv preserves_load_azure
  preserves_load_vmware : frame.
#[local] Hint Extern 1 (_ ∉ _) =>
  (unfold aws_attrs, hyperv_attrs, azure_attrs, vmware_attrs; not_in) : frame.

Ltac replay_prog :=
  first
    [ apply replays_setattr_from
    | apply replays_setattr
    | apply replays_getattr
    | apply replays_set_expiration_time
    | apply (replays_lift [])
    | apply replays_ret
    | eapply replays_weaken; [apply replays_setattr | included]
    | apply replays_if; replay_prog
    | eapply replays_bind; [replay_prog | intros ?; replay_prog | later_preserves] ].

Lemma replays_load_aws props : replays aws_attrs (load_aws props).
Proof. unfold load_aws. eapply replays_weaken; [replay_prog | included]. Qed.

Lemma replays_load_hyperv props : replays hyperv_attrs (load_hyperv props).
Proof. unfold load_hyperv. eapply replays_weaken; [replay_prog | included]. Qed.

Lemma replays_load_azure props : replays azure_attrs (load_azure props).
Proof. unfold load_azure. eapply replays_weaken; [replay_prog | included]. Qed.

Lemma replays_load_vmware props : replays vmware_attrs (load_vmware props).
Proof. unfold load_vmware. eapply replays_weaken; [replay_prog | included]. Qed.

Lemma replays_load_common props :
  replays [ "_recovery_target_properties"; "_application_type";
            "_destination_hypervisor"; "_vm_suffix"; "_vm_prefix"; "_access_node";
            "_access_node_client_group"; "_users"; "_user_groups" ]
    (load_common props).
Proof. unfold load_common. eapply replays_weaken; [replay_prog | included]. Qed.

Lemma replays_dispatch props code :
  replays variant_attrs
    (match code with
     | JNum 1 => load_aws props
     | JNum 2 => load_hyperv props
     | JNum 7 => load_azure props
     | JNum 13 => load_vmware props
     | _ => mret ()
     end).
Proof.
  assert (Hsub : forall W, (W = aws_attrs \/ W = hyperv_attrs \/ W = azure_attrs \/
                             W = vmware_attrs) ->
                 forall a, a ∈ W -> a ∈ variant_attrs).
  { intros W HW a Ha. unfold variant_attrs. rewrite !elem_of_app.
    destruct HW as [-> | [-> | [-> | ->]]]; tauto. }
  repeat case_match;
    first
      [ apply replays_ret
      | apply (replays_weaken aws_attrs); [apply replays_load_aws|apply Hsub; tauto]
      | apply (replays_weaken hyperv_attrs); [apply replays_load_hyperv|apply Hsub; tauto]
      | apply (replays_weaken azure_attrs); [apply replays_load_azure|apply Hsub; tauto]
      | apply (replays_weaken vmware_attrs); [apply replays_load_vmware|apply Hsub; tauto] ].
Qed.

Lemma replays_populate props :
  replays (common_attrs ++ variant_attrs) (populate props).
Proof.
  unfold populate, _set_policy_type.
  eapply replays_weaken.
  - eapply replays_bind; [apply replays_load_common | intros [] | later_preserves].
    eapply replays_bind; [apply (replays_lift []) | intros pt | later_preserves].
    eapply replays_bind; [apply replays_setattr | intros [] | later_preserves].
    eapply replays_bind; [apply replays_getattr | intros code | later_preserves].
    apply replays_dispatch.
  - intros a Ha. rewrite !elem_of_app in Ha. rewrite elem_of_app.
    destruct Ha as [Ha|[Ha|[Ha|[Ha|Ha]]]]; auto.
    + left. revert a Ha. unfold common_attrs. included.
    + by apply elem_of_nil in Ha.
    + left. revert a Ha. unfold common_attrs. included.
    + left. revert a Ha. unfold common_attrs. included.
Qed.

(** ** The method [refresh] of a target *)

Lemma refresh_unfold cc (self : attrs) log url :
  self !! "_RECOVERY_TARGET_API" = Some (JStr url) ->
  RecoveryTarget_refresh cc self log =
    load_properties cc (make_request cc (length log) "GET" url).1
                       (make_request cc (length log) "GET" url).2
      self (log ++ [("GET", url)]).
Proof.
  intros Hapi.
  unfold RecoveryTarget_refresh, _get_recovery_target_properties.
  unfold mbind at 1, M_bind at 1, getattr.
  unfold mbind at 1, M_bind at 1, gets.
  rewrite Hapi.
  unfold mret, M_ret, mbind, M_bind, lift, request. simpl.
  destruct (make_request cc (length log) "GET" url). reflexivity.
Qed.

Lemma refresh_needs_api cc (self : attrs) log u self' log' :
  RecoveryTarget_refresh cc self log = (Ok u, self', log') ->
  exists url, self !! "_RECOVERY_TARGET_API" = Some (JStr url).
Proof.
  unfold RecoveryTarget_refresh, _get_recovery_target_properties. intros H.
  apply bind_Ok in H as (api & s1 & l1 & Hapi & H).
  apply getattr_Ok in Hapi as (Hapi & -> & ->).
  apply bind_Ok in H as (url & s1 & l1 & Hurl & H).
  apply lift_Ok in Hurl as (Hurl & -> & ->).
  destruct api; try discriminate. injection Hurl as ->. eauto.
Qed.

Lemma load_properties_Ok_inv cc flag response (self : attrs) log self' log' :
  load_properties cc flag response self log = (Ok (), self', log') ->
  flag = true /\ truthy (json_ response) = true /\
  py_in "entity" (json_ response) = Ok true.
Proof.
  unfold load_properties. destruct flag; [|discriminate].
  destruct (truthy (json_ response)); [|discriminate].
  intros H. apply bind_Ok in H as (found & s1 & l1 & Hfound & H).
  apply lift_Ok in Hfound as (Hfound & -> & ->).
  destruct found; [auto|discriminate].
Qed.

Lemma not_in_any_group a code : a ∉ variant_attrs -> a ∉ group code.
Proof.
  intros Ha Hin. apply Ha. unfold variant_attrs. rewrite !elem_of_app.
  unfold group in Hin. repeat case_match; auto; by apply elem_of_nil in Hin.
Qed.

(** What a refresh that returns has done, from any object. *)
Lemma refresh_Ok cc (self : attrs) log self' log' :
  RecoveryTarget_refresh cc self log = (Ok (), self', log') ->
  exists url,
    self !! "_RECOVERY_TARGET_API" = Some (JStr url) /\
    log' = log ++ [("GET", url)] /\
    populate (json_ (make_request cc (length log) "GET" url).2) self (log ++ [("GET", url)]) =
      (Ok (), self', log').
Proof.
  intros H. destruct (refresh_needs_api _ _ _ _ _ _ H) as [url Hapi].
  exists url. split; [exact Hapi|].
  rewrite (refresh_unfold _ _ _ _ Hapi) in H.
  pose proof (silent_load_properties cc
    (make_request cc (length log) "GET" url).1
    (make_request cc (length log) "GET" url).2 self (log ++ [("GET", url)])) as Hsilent.
  rewrite H in Hsilent. simpl in Hsilent.
  split; [exact Hsilent|]. by apply load_properties_Ok in H.
Qed.

(** X1.  A refresh that returned, followed by a refresh that the
    transport answers as it answered the first, returns again and
    leaves every attribute of the target as the first refresh left it;
    each of the two sends one request, to the URL of the target. *)
Theorem refresh_idempotent cc (self : attrs) log self1 log1 url :
  self !! "_RECOVERY_TARGET_API" = Some (JStr url) ->
  RecoveryTarget_refresh cc self log = (Ok (), self1, log1) ->
  make_request cc (length log1) "GET" url = make_request cc (length log) "GET" url ->
  log1 = log ++ [("GET", url)] /\
  RecoveryTarget_refresh cc self1 log1 = (Ok (), self1, log1 ++ [("GET", url)]).
Proof.
  intros Hapi Hfirst Hsame.
  pose proof Hfirst as Hrun.
  apply refresh_Ok in Hrun as (url' & Hapi' & Hlog & Hpop).
  rewrite Hapi in Hapi'. injection Hapi' as <-.
  split; [exact Hlog|].
  rewrite (refresh_unfold _ _ _ _ Hapi) in Hfirst.
  apply load_properties_Ok_inv in Hfirst as (Hflag & Htruthy & Hin).
  assert (Hapi1 : self1 !! "_RECOVERY_TARGET_API" = Some (JStr url)).
  { destruct (populate_Ok _ _ _ _ _ Hpop) as (pt & _ & _ & _ & Hframe & _).
    rewrite Hframe; [exact Hapi| |].
    - unfold common_attrs. not_in.
    - apply not_in_any_group.
      unfold variant_attrs, aws_attrs, hyperv_attrs, azure_attrs, vmware_attrs.
      simpl. not_in. }
  rewrite (refresh_unfold _ _ _ _ Hapi1), Hsame.
  unfold load_properties. rewrite Hflag, Htruthy.
  unfold mbind at 1, M_bind at 1, lift at 1. rewrite Hin.
  apply (replays_populate _ _ _ _ _ _ Hpop). reflexivity.
Qed.


(** X3.  A refresh of an AWS, Azure or VMware target whose document has
    neither a true [minutesRetainUntil] nor a true [daysRetainUntil]
    does not reset the expiration time: [_expiration_time] keeps the
    value it had before the refresh. *)
Theorem refresh_keeps_expiration cc (self : attrs) log self' log' props policyType :
  RecoveryTarget_refresh cc self log = (Ok (), self', log') ->
  self' !! "_recovery_target_properties" = Some props ->
  doc_policy_type props = Ok policyType ->
  policy_type_code policyType ∈ [1; 7; 13]%Z ->
  present_and_truthy (retain_until "minutesRetainUntil" props) = None ->
  present_and_truthy (retain_until "daysRetainUntil" props) = None ->
  self' !! "_expiration_time" = self !! "_expiration_time".
Proof.
  intros H Hprops Hpt Hcode Hhours Hdays.
  apply refresh_Ok in H as (url & _ & _ & Hpop).
  apply populate_Ok in Hpop as (pt & Hpt' & Hprops' & _ & _ & Hexp).
  rewrite Hprops in Hprops'. injection Hprops' as Hsame. rewrite <- Hsame in *.
  rewrite Hpt in Hpt'. injection Hpt' as <-.
  rewrite (Hexp Hcode). unfold rendered_expiration. by rewrite Hhours, Hdays.
Qed.

(** X4.  When the transport succeeds with a body that has the key
    ['entity'] and the load still raises, the error is a built-in one
    (no [SDKException]) and the target already holds the new document:
    the load is not undone. *)
Theorem failed_load_keeps_document cc response (self : attrs) log e self' log' :
  truthy (json_ response) = true ->
  py_in "entity" (json_ response) = Ok true ->
  load_properties cc true response self log = (Raise e, self', log') ->
  builtin e /\ self' !! "_recovery_target_properties" = Some (json_ response).
Proof.
  intros Htruthy Hin. unfold load_properties. rewrite Htruthy.
  unfold mbind at 1, M_bind at 1, lift at 1. rewrite Hin.
  intros H. split; [by apply (plainM_populate _ _ _ _ _ _ H)|].
  revert H. unfold populate. unfold mbind at 1, M_bind at 1.
  unfold load_common at 1. unfold mbind at 1, M_bind at 1.
  unfold setattr at 1, assign at 1.
  match goal with
  | |- context [?rest (<["_recovery_target_properties" := json_ response]> self) log] =>
      assert (Hrest : preserves "_recovery_target_properties" rest)
        by (repeat frame_step);
      pose proof (Hrest (<["_recovery_target_properties" := json_ response]> self) log)
        as Hstep;
      destruct (rest (<["_recovery_target_properties" := json_ response]> self) log)
        as [[[[]|e1] s1] l1]
  end; simpl in Hstep; rewrite lookup_insert_eq in Hstep.
  - match goal with
    | |- ?rest2 s1 l1 = _ -> _ =>
        assert (Hrest2 : preserves "_recovery_target_properties" rest2)
          by (unfold _set_policy_type; repeat frame_step);
        intros H; rewrite (preserved _ _ _ _ _ _ _ Hrest2 H)
    end.
    exact Hstep.
  - intros [= <- <- <-]. exact Hstep.
Qed.

(** ** The attributes never disappear *)

Lemma keeps_ret {A} (x : A) : keeps (mret x).
Proof. intros s l a Ha. exact Ha. Qed.

Lemma keeps_raise {A} e : keeps (A := A) (raise e).
Proof. intros s l a Ha. exact Ha. Qed.

Lemma keeps_lift {A} (r : result A) : keeps (lift r).
Proof. intros s l a Ha. exact Ha. Qed.

Lemma keeps_gets {A} (f : attrs -> A) : keeps (gets f).
Proof. intros s l a Ha. exact Ha. Qed.

Lemma keeps_bind {A B} (m : M attrs A) (k : A -> M attrs B) :
  keeps m -> (forall x, keeps (k x)) -> keeps (m ≫= k).
Proof.
  intros Hm Hk s l a Ha. unfold mbind, M_bind.
  specialize (Hm s l a Ha).
  destruct (m s l) as [[[x|e] s1] l1]; simpl in *.
  - by apply Hk.
  - exact Hm.
Qed.

Lemma keeps_setattr name v : keeps (setattr name v).
Proof.
  intros s l a Ha. simpl. rewrite lookup_insert.
  case_decide; [eauto|exact Ha].
Qed.

Lemma keeps_getattr name : keeps (getattr name).
Proof.
  apply keeps_bind; [apply keeps_gets|].
  intros [v|]; [apply keeps_ret|apply keeps_raise].
Qed.

Lemma keeps_setattr_from name r : keeps (setattr_from name r).
Proof. apply keeps_bind; [apply keeps_lift|]. intros v. apply keeps_setattr. Qed.

Create HintDb keeps.

#[local] Hint Resolve keeps_ret keeps_raise keeps_lift keeps_gets keeps_setattr
  keeps_getattr keeps_setattr_from : keeps.

Ltac keeps_step :=
  first
    [ solve [auto with keeps]
    | apply keeps_bind; [|intros ?]
    | case_match ].

Lemma keeps_populate props : keeps (populate props).
Proof.
  unfold populate, load_common, _set_policy_type, load_aws, load_hyperv,
    load_azure, load_vmware, set_expiration_time.
  repeat keeps_step.
Qed.

Lemma kept {A} (m : M attrs A) s l r s' l' a :
  keeps m -> m s l = (r, s', l') -> is_Some (s !! a) -> is_Some (s' !! a).
Proof. intros Hm E Ha. specialize (Hm s l a Ha). by rewrite E in Hm. Qed.

Lemma before_refresh_has name target_id url prop attr :
  (prop, attr) ∈ properties -> prop ≠ "server_group" ->
  is_Some (before_refresh name target_id url !! attr).
Proof.
  intros Hin Hprop. unfold properties in Hin.
  repeat (apply elem_of_cons in Hin as [[= -> ->]|Hin];
          [first [ congruence
                 | rewrite before_refresh_unset by not_in; by eexists
                 | unfold before_refresh; rewrite lookup_union_r
                     by (apply not_elem_of_list_to_map_1; simpl; not_in);
                   rewrite ?lookup_insert_eq, ?lookup_insert_ne by discriminate;
                   rewrite ?lookup_insert_eq; by eexists ]|]).
  by apply elem_of_nil in Hin.
Qed.

(** X5.  On a constructed target every property that returns an
    attribute returns a value, [server_group] apart: the attributes the
    properties read are all assigned by [__init__] and no load removes
    one. *)
Theorem properties_return {S} cc name recovery_target_id (self : S) log obj self' log'
    prop attr :
  new_RecoveryTarget cc name recovery_target_id self log = (Ok obj, self', log') ->
  (prop, attr) ∈ properties -> prop ≠ "server_group" ->
  exists v, obj !! attr = Some v /\ read_property prop obj = Ok v.
Proof.
  intros Hnew Hin Hprop.
  apply new_RecoveryTarget_Ok in Hnew as (n & target_id & url & props & log0 & Hload).
  destruct (kept _ _ _ _ _ _ attr (keeps_populate props) Hload
              (before_refresh_has n target_id url prop attr Hin Hprop)) as [v Hv].
  exists v. split; [exact Hv|].
  rewrite (read_property_attr prop attr obj Hin), Hv. reflexivity.
Qed.

(** ** The name and the id of a constructed target *)

Lemma _get_recovery_target_id_Ok cc (self : attrs) log target_id self1 log1 :
  _get_recovery_target_id cc self log = (Ok target_id, self1, log1) ->
  exists d name,
    recovery_targets_of cc
      (make_request cc (length log) "GET" (GET_ALL_RECOVERY_TARGETS cc)).1
      (make_request cc (length log) "GET" (GET_ALL_RECOVERY_TARGETS cc)).2 = Ok d /\
    self !! "_recovery_target_name" = Some name /\
    dict_getitem d name = Ok target_id /\
    self1 = self /\
    log1 = log ++ [("GET", GET_ALL_RECOVERY_TARGETS cc)].
Proof.
  unfold _get_recovery_target_id. intros H.
  apply bind_Ok in H as (target & s1 & l1 & Hnew & H).
  unfold new_RecoveryTargets, new, RecoveryTargets__init__ in Hnew.
  unfold mbind at 1, M_bind at 1, assign at 1 in Hnew.
  destruct (refresh cc _ log) as [[[[]|e] catalog] l2] eqn:Hrefresh; [|discriminate].
  injection Hnew as <- <- <-.
  apply refresh_replaces in Hrefresh as (d & Hload & ->).
  rewrite _get_recovery_targets_eq in Hload. injection Hload as Hd <-.
  apply bind_Ok in H as (name & s1 & l1 & Hname & H).
  apply getattr_Ok in Hname as (Hname & -> & ->).
  simpl in H. apply lift_Ok in H as (Hid & -> & ->).
  exists d, name. auto.
Qed.

Lemma new_RecoveryTarget_named {S} cc n recovery_target_id (self : S) log obj self' log' :
  new_RecoveryTarget cc (JStr n) recovery_target_id self log = (Ok obj, self', log') ->
  exists target_id log1,
    (if truthy recovery_target_id
     then target_id = py_str recovery_target_id /\ log1 = log
     else _get_recovery_target_id cc
            (<["_recovery_target_name" := JStr (lower n)]> ∅) log =
            (Ok target_id, <["_recovery_target_name" := JStr (lower n)]> ∅, log1)) /\
    RecoveryTarget_refresh cc
      (before_refresh (lower n) target_id (GET_RECOVERY_TARGET cc target_id)) log1 =
      (Ok (), obj, log').
Proof.
  unfold new_RecoveryTarget, new. rewrite init_run.
  destruct (truthy recovery_target_id).
  - destruct (RecoveryTarget_refresh cc _ log) as [[[[]|e] o] l] eqn:E; [|discriminate].
    intros [= <- <- <-]. eauto.
  - pose proof (_get_recovery_target_id_self cc
                  (<["_recovery_target_name" := JStr (lower n)]> ∅) log) as Hself.
    destruct (_get_recovery_target_id cc _ log) as [[[target_id|e] s1] l1];
      [|discriminate].
    simpl in Hself. subst s1.
    destruct (RecoveryTarget_refresh cc _ l1) as [[[[]|e] o] l] eqn:E; [|discriminate].
    intros [= <- <- <-]. eauto.
Qed.

Lemma refresh_keeps_identity cc name target_id url log obj log' :
  RecoveryTarget_refresh cc (before_refresh name target_id url) log = (Ok (), obj, log') ->
  obj !! "_recovery_target_name" = Some (JStr name) /\
  obj !! "_recovery_target_id" = Some (JStr target_id) /\
  log' = log ++ [("GET", url)].
Proof.
  intros H. apply refresh_Ok in H as (url' & Hapi & Hlog & Hpop).
  rewrite before_refresh_api in Hapi. injection Hapi as <-.
  apply populate_Ok in Hpop as (pt & _ & _ & _ & Hframe & _).
  assert (Hout : forall a, a ∈ ["_recovery_target_name"; "_recovery_target_id"] ->
            (a ∉ common_attrs) /\ (a ∉ variant_attrs)).
  { intros a Ha.
    repeat (apply elem_of_cons in Ha as [->|Ha];
            [split; [unfold common_attrs; not_in
                    |unfold variant_attrs, aws_attrs, hyperv_attrs, azure_attrs,
                       vmware_attrs; simpl; not_in]|]).
    by apply elem_of_nil in Ha. }
  split; [|split; [|exact Hlog]].
  - destruct (Hout "_recovery_target_name") as [Hc Hv]; [is_in|].
    rewrite (Hframe _ Hc (not_in_any_group _ _ Hv)).
    unfold before_refresh. rewrite lookup_union_r
      by (apply not_elem_of_list_to_map_1; simpl; not_in).
    rewrite !lookup_insert_ne by discriminate. apply lookup_insert_eq.
  - destruct (Hout "_recovery_target_id") as [Hc Hv]; [is_in|].
    rewrite (Hframe _ Hc (not_in_any_group _ _ Hv)).
    unfold before_refresh. rewrite lookup_union_r
      by (apply not_elem_of_list_to_map_1; simpl; not_in).
    rewrite lookup_insert_ne by discriminate. apply lookup_insert_eq.
Qed.

Lemma new_RecoveryTarget_given_id {S} cc n recovery_target_id (self : S) log obj self' log' :
  new_RecoveryTarget cc (JStr n) recovery_target_id self log = (Ok obj, self', log') ->
  truthy recovery_target_id = true ->
  read_property "recovery_target_name" obj = Ok (JStr (lower n)) /\
  read_property "recovery_target_id" obj = Ok (JStr (py_str recovery_target_id)) /\
  log' = log ++ [("GET", GET_RECOVERY_TARGET cc (py_str recovery_target_id))].
Proof.
  intros Hnew Hgiven.
  apply new_RecoveryTarget_named in Hnew as (target_id & log1 & Hid & Hrefresh).
  rewrite Hgiven in Hid. destruct Hid as [-> ->].
  apply refresh_keeps_identity in Hrefresh as (Hname & Hid & Hlog).
  rewrite (read_property_attr _ "_recovery_target_name") by (unfold properties; is_in).
  rewrite (read_property_attr _ "_recovery_target_id") by (unfold properties; is_in).
  by rewrite Hname, Hid.
Qed.

(** X6.  A target constructed with a name and a given (true) id has the
    lower-cased name as [recovery_target_name] and [str] of the id as
    [recovery_target_id], and its construction sent one request: the
    detail request for that id. *)
Theorem constructed_with_id {S} cc n recovery_target_id (self : S) log obj self' log' :
  new_RecoveryTarget cc (JStr n) recovery_target_id self log = (Ok obj, self', log') ->
  truthy recovery_target_id = true ->
  read_property "recovery_target_name" obj = Ok (JStr (lower n)) /\
  read_property "recovery_target_id" obj = Ok (JStr (py_str recovery_target_id)) /\
  log' = log ++ [("GET", GET_RECOVERY_TARGET cc (py_str recovery_target_id))].
Proof. apply new_RecoveryTarget_given_id. Qed.

(** X7.  A target constructed with a name and no id (or a false one)
    has sent two requests, the list request and then the detail request;
    its id is the one the list response gives for the lower-cased
    name. *)
Theorem constructed_without_id {S} cc n recovery_target_id (self : S) log obj self' log' :
  new_RecoveryTarget cc (JStr n) recovery_target_id self log = (Ok obj, self', log') ->
  truthy recovery_target_id = false ->
  exists d target_id,
    recovery_targets_of cc
      (make_request cc (length log) "GET" (GET_ALL_RECOVERY_TARGETS cc)).1
      (make_request cc (length log) "GET" (GET_ALL_RECOVERY_TARGETS cc)).2 = Ok d /\
    d !! lower n = Some target_id /\
    read_property "recovery_target_name" obj = Ok (JStr (lower n)) /\
    read_property "recovery_target_id" obj = Ok (JStr target_id) /\
    log' = log ++ [("GET", GET_ALL_RECOVERY_TARGETS cc);
                   ("GET", GET_RECOVERY_TARGET cc target_id)].
Proof.
  intros Hnew Hnone.
  apply new_RecoveryTarget_named in Hnew as (target_id & log1 & Hid & Hrefresh).
  rewrite Hnone in Hid.
  apply _get_recovery_target_id_Ok in Hid as (d & name & Hd & Hname & Hitem & _ & ->).
  rewrite lookup_insert_eq in Hname. injection Hname as <-.
  simpl in Hitem. destruct (d !! lower n) as [v|] eqn:Hkey; [|discriminate].
  injection Hitem as ->.
  apply refresh_keeps_identity in Hrefresh as (Hname & Hid & Hlog).
  exists d, target_id. split; [exact Hd|]. split; [exact Hkey|].
  rewrite (read_property_attr _ "_recovery_target_name") by (unfold properties; is_in).
  rewrite (read_property_attr _ "_recovery_target_id") by (unfold properties; is_in).
  rewrite Hname, Hid, Hlog, <- app_assoc. auto.
Qed.

(** ** The common fields *)

Lemma load_common_Ok props (self : attrs) log self1 log1 :
  load_common props self log = (Ok (), self1, log1) ->
  exists application_type hypervisor suffix prefix node node_type users groups,
    chain props [("entity", EMPTY_DICT); ("applicationType", JNull)] = Ok application_type /\
    chain props [("entity", EMPTY_DICT); ("destinationHypervisor", EMPTY_DICT);
                 ("name", JNull)] = Ok hypervisor /\
    chain props [("vmDisplayName", EMPTY_DICT); ("suffix", JStr "")] = Ok suffix /\
    chain props [("vmDisplayName", EMPTY_DICT); ("prefix", JStr "")] = Ok prefix /\
    chain props [("accessNode", EMPTY_DICT); ("name", JStr "")] = Ok node /\
    chain props [("accessNode", EMPTY_DICT); ("type", JStr "")] = Ok node_type /\
    chain props [("securityOptions", EMPTY_DICT); ("users", JList [])] = Ok users /\
    chain props [("securityOptions", EMPTY_DICT); ("userGroups", JList [])] = Ok groups /\
    log1 = log /\
    self1 =
      <["_user_groups" := groups]>
        (<["_users" := users]>
           (<["_access_node_client_group" :=
                if is_str "Group" node_type then node else JStr ""]>
              (<["_access_node" := node]>
                 (<["_vm_prefix" := prefix]>
                    (<["_vm_suffix" := suffix]>
                       (<["_destination_hypervisor" := hypervisor]>
                          (<["_application_type" := application_type]>
                             (<["_recovery_target_properties" := props]> self)))))))).
Proof.
  unfold load_common. intros H.
  apply bind_Ok in H as ([] & s0 & l0 & Hfirst & H).
  apply setattr_Ok in Hfirst as [-> ->].
  apply bind_Ok in H as ([] & s0 & l0 & Hs & H).
  apply setattr_from_Ok in Hs as (application_type & Happ & -> & ->).
  apply bind_Ok in H as ([] & s0 & l0 & Hs & H).
  apply setattr_from_Ok in Hs as (hypervisor & Hhyp & -> & ->).
  apply bind_Ok in H as ([] & s0 & l0 & Hs & H).
  apply setattr_from_Ok in Hs as (suffix & Hsuffix & -> & ->).
  apply bind_Ok in H as ([] & s0 & l0 & Hs & H).
  apply setattr_from_Ok in Hs as (prefix & Hprefix & -> & ->).
  apply bind_Ok in H as ([] & s0 & l0 & Hs & H).
  apply setattr_from_Ok in Hs as (node & Hnode & -> & ->).
  apply bind_Ok in H as (node_type & s0 & l0 & Hs & H).
  apply lift_Ok in Hs as (Htype & -> & ->).
  apply bind_Ok in H as ([] & s0 & l0 & Hgroup & H).
  apply bind_Ok in H as ([] & s2 & l2 & Hs & H).
  apply setattr_from_Ok in Hs as (users & Husers & -> & ->).
  apply setattr_from_Ok in H as (groups & Hgroups & -> & ->).
  exists application_type, hypervisor, suffix, prefix, node, node_type, users, groups.
  repeat (split; [assumption|]).
  destruct (is_str "Group" node_type).
  - apply bind_Ok in Hgroup as (v & s3 & l3 & Hget & Hset).
    apply getattr_Ok in Hget as (Hget & -> & ->).
    rewrite lookup_insert_eq in Hget. injection Hget as <-.
    apply setattr_Ok in Hset as [-> ->]. auto.
  - apply setattr_Ok in Hgroup as [-> ->]. auto.
Qed.

Lemma populate_common props (self : attrs) log self' log' :
  populate props self log = (Ok (), self', log') ->
  exists self1,
    load_common props self log = (Ok (), self1, log) /\
    forall a, a ∈ ["_application_type"; "_destination_hypervisor"; "_vm_suffix";
                   "_vm_prefix"; "_access_node"; "_access_node_client_group";
                   "_users"; "_user_groups"] ->
      self' !! a = self1 !! a.
Proof.
  unfold populate. intros H.
  apply bind_Ok in H as ([] & s1 & l1 & Hcommon & H).
  pose proof (load_common_Ok _ _ _ _ _ Hcommon)
    as (? & ? & ? & ? & ? & ? & ? & ? & _ & _ & _ & _ & _ & _ & _ & _ & -> & _).
  exists s1. split; [exact Hcommon|].
  intros a Ha.
  match type of H with
  | ?rest _ _ = _ =>
      assert (Hrest : preserves a rest);
        [|exact (preserved _ _ _ _ _ _ _ Hrest H)]
  end.
  unfold _set_policy_type.
  repeat (apply elem_of_cons in Ha as [->|Ha]; [repeat frame_step|]).
  by apply elem_of_nil in Ha.
Qed.

(** X8.  On a constructed target the properties of the common fields
    return what the stored document says, with the defaults of the
    source: [None] for a missing application type or hypervisor name,
    the empty string for a missing prefix, suffix or access node, and
    as client group of the access node its name when its type is
    ["Group"] and the empty string otherwise. *)
Theorem common_fields_of_document {S} cc name recovery_target_id (self : S) log
    obj self' log' :
  new_RecoveryTarget cc name recovery_target_id self log = (Ok obj, self', log') ->
  exists props node_type,
    obj !! "_recovery_target_properties" = Some props /\
    chain props [("entity", EMPTY_DICT); ("applicationType", JNull)] =
      read_property "application_type" obj /\
    chain props [("entity", EMPTY_DICT); ("destinationHypervisor", EMPTY_DICT);
                 ("name", JNull)] = read_property "destination_hypervisor" obj /\
    chain props [("vmDisplayName", EMPTY_DICT); ("prefix", JStr "")] =
      read_property "vm_prefix" obj /\
    chain props [("vmDisplayName", EMPTY_DICT); ("suffix", JStr "")] =
      read_property "vm_suffix" obj /\
    chain props [("accessNode", EMPTY_DICT); ("name", JStr "")] =
      read_property "access_node" obj /\
    chain props [("accessNode", EMPTY_DICT); ("type", JStr "")] = Ok node_type /\
    read_property "access_node_client_group" obj =
      (if is_str "Group" node_type then read_property "access_node" obj
       else Ok (JStr "")).
Proof.
  intros Hnew.
  apply new_RecoveryTarget_Ok in Hnew as (n & target_id & url & props & log0 & Hload).
  destruct (populate_Ok _ _ _ _ _ Hload) as (pt & _ & Hprops & _).
  apply populate_common in Hload as (s1 & Hcommon & Hsame).
  apply load_common_Ok in Hcommon
    as (application_type & hypervisor & suffix & prefix & node & node_type & users &
        groups & Happ & Hhyp & Hsuffix & Hprefix & Hnode & Htype & _ & _ & _ & ->).
  exists props, node_type. split; [exact Hprops|].
  rewrite (read_property_attr _ "_application_type") by (unfold properties; is_in).
  rewrite (read_property_attr _ "_destination_hypervisor") by (unfold properties; is_in).
  rewrite (read_property_attr _ "_vm_prefix") by (unfold properties; is_in).
  rewrite (read_property_attr _ "_vm_suffix") by (unfold properties; is_in).
  rewrite (read_property_attr _ "_access_node") by (unfold properties; is_in).
  rewrite (read_property_attr _ "_access_node_client_group")
    by (unfold properties; is_in).
  rewrite !Hsame by is_in.
  rewrite Happ, Hhyp, Hsuffix, Hprefix, Hnode.
  repeat (first [rewrite lookup_insert_eq | rewrite lookup_insert_ne by discriminate]).
  repeat (split; [reflexivity|]). split; [exact Htype|].
  by destruct (is_str "Group" node_type).
Qed.

(** ** The names of the users *)

Lemma user_names_all users names :
  Forall2 (fun user name => py_getitem user "userName" = Ok name) users names ->
  user_names users = Ok names.
Proof.
  induction 1 as [|user name users names Hname _ IH]; [reflexivity|].
  simpl. rewrite Hname. simpl. rewrite IH. reflexivity.
Qed.

(** X9.  On a constructed target [security_user_names] is the list of
    the [userName] of the entries of [securityOptions.users] of the
    stored document, in their order, when each entry has one; it is the
    empty list when the document has no such users. *)
Theorem security_user_names_of_document {S} cc name recovery_target_id (self : S) log
    obj self' log' :
  new_RecoveryTarget cc name recovery_target_id self log = (Ok obj, self', log') ->
  exists props users,
    obj !! "_recovery_target_properties" = Some props /\
    chain props [("securityOptions", EMPTY_DICT); ("users", JList [])] = Ok users /\
    (forall entries names,
       users = JList entries ->
       Forall2 (fun user name => py_getitem user "userName" = Ok name) entries names ->
       security_user_names obj = Ok (JList names)) /\
    (users = JList [] -> security_user_names obj = Ok (JList [])).
Proof.
  intros Hnew.
  apply new_RecoveryTarget_Ok in Hnew as (n & target_id & url & props & log0 & Hload).
  destruct (populate_Ok _ _ _ _ _ Hload) as (pt & _ & Hprops & _).
  apply populate_common in Hload as (s1 & Hcommon & Hsame).
  apply load_common_Ok in Hcommon
    as (application_type & hypervisor & suffix & prefix & node & node_type & users &
        groups & _ & _ & _ & _ & _ & _ & Husers & _ & _ & ->).
  assert (Hattr : obj !! "_users" = Some users).
  { rewrite Hsame by is_in.
    rewrite lookup_insert_ne by discriminate. apply lookup_insert_eq. }
  exists props, users. split; [exact Hprops|]. split; [exact Husers|].
  assert (Hall : forall entries names,
            users = JList entries ->
            Forall2 (fun user name => py_getitem user "userName" = Ok name) entries names ->
            security_user_names obj = Ok (JList names)).
  { intros entries names -> Hnames.
    unfold security_user_names. rewrite Hattr. simpl.
    rewrite (user_names_all _ _ Hnames). reflexivity. }
  split; [exact Hall|].
  intros Hnone. apply (Hall [] [] Hnone). constructor.
Qed.

(** ** The catalog after a load *)

Lemma add_recovery_target_Ok r acc d :
  add_recovery_target r acc = Ok d ->
  forall k, d !! k = match listed_as k r with
                     | Some target_id => Some (py_str target_id)
                     | None => acc !! k
                     end.
Proof.
  unfold add_recovery_target, listed_as, record_fields.
  destruct r as [| | | | |items]; try discriminate.
  simpl. destruct (dict_lookup "applicationType" items) as [app|]; [|discriminate].
  simpl. destruct (is_str "CLEAN_ROOM" app) eqn:Hclean; simpl.
  - intros [= <-] k.
    destruct (dict_lookup "name" items) as [[| | |name| |]|]; try reflexivity.
    destruct (dict_lookup "id" items); [|reflexivity].
    rewrite Hclean. reflexivity.
  - destruct (dict_lookup "name" items) as [[| | |name| |]|]; try discriminate.
    simpl. destruct (dict_lookup "id" items) as [target_id|]; [|discriminate].
    simpl. intros [= <-] k. rewrite Hclean. simpl.
    destruct (String.eqb_spec (lower name) k) as [->|Hne].
    + apply lookup_insert_eq.
    + by apply lookup_insert_ne.
Qed.

Lemma add_recovery_targets_Ok records : forall acc d,
  add_recovery_targets records acc = Ok d ->
  forall k, d !! k = match last_listed k records with
                     | Some target_id => Some (py_str target_id)
                     | None => acc !! k
                     end.
Proof.
  induction records as [|r rest IH]; intros acc d.
  - intros [= <-] k. reflexivity.
  - simpl. destruct (add_recovery_target r acc) as [d1|e] eqn:Hr; [|discriminate].
    simpl. intros Hrest k. rewrite (IH _ _ Hrest k).
    destruct (last_listed k rest); [reflexivity|].
    apply (add_recovery_target_Ok _ _ _ Hr).
Qed.

Lemma last_listed_is_Some k records :
  is_Some (last_listed k records) <->
  exists r target_id, r ∈ records /\ listed_as k r = Some target_id.
Proof.
  split.
  - intros [i Hi]. apply last_listed_Some in Hi as (pre & r & post & -> & Hr & _).
    exists r, i. split; [|exact Hr]. rewrite elem_of_app, elem_of_cons. auto.
  - intros (r & i & Hin & Hr).
    destruct (last_listed k records) eqn:Hlast; [eauto|].
    apply last_listed_None in Hlast. rewrite Forall_forall in Hlast.
    rewrite (Hlast r Hin) in Hr. discriminate.
Qed.

Lemma listed_as_lower k r target_id :
  (forall applicationType name i,
     record_fields r = Some (applicationType, name, i) -> lower (lower name) = lower name) ->
  listed_as k r = Some target_id -> lower k = k.
Proof.
  intros Hstable H. apply listed_as_inv in H as (app & name & Hfields & _ & <-).
  exact (Hstable _ _ _ Hfields).
Qed.

Lemma refresh_Ok_records cc self log self' log' response items records :
  refresh cc self log = (Ok (), self', log') ->
  make_request cc (length log) "GET" (GET_ALL_RECOVERY_TARGETS cc) = (true, response) ->
  json_ response = JObj items ->
  dict_lookup "recoveryTargets" items = Some (JList records) ->
  exists d, self' = {| _recovery_targets := Some d |} /\
    forall k, d !! k = match last_listed k records with
                       | Some target_id => Some (py_str target_id)
                       | None => None
                       end.
Proof.
  intros Hrefresh Hreq Hbody Hkey.
  apply refresh_replaces in Hrefresh as (d & Hload & ->).
  rewrite _get_recovery_targets_eq, Hreq in Hload. simpl in Hload.
  injection Hload as Hd _. exists d. split; [reflexivity|].
  unfold recovery_targets_of in Hd. rewrite Hbody in Hd.
  destruct (truthy (JObj items)); [|discriminate].
  simpl in Hd. rewrite bool_decide_eq_true_2 in Hd by (rewrite Hkey; eauto).
  rewrite Hkey in Hd. simpl in Hd.
  intros k. rewrite (add_recovery_targets_Ok _ _ _ Hd k).
  destruct (last_listed k records); [reflexivity|apply lookup_empty].
Qed.

(** X10.  After a refresh of the catalog that returned, from a list
    response with the records [records], [has_recovery_target] on a
    string returns a true value exactly when some record that is not
    ["CLEAN_ROOM"] has the same lower-cased name; it sends no request and
    leaves the catalog as it is.  The answer depends on the lower-cased
    name only. *)
Theorem has_after_refresh cc self log self' log' response items records :
  refresh cc self log = (Ok (), self', log') ->
  make_request cc (length log) "GET" (GET_ALL_RECOVERY_TARGETS cc) = (true, response) ->
  json_ response = JObj items ->
  dict_lookup "recoveryTargets" items = Some (JList records) ->
  forall s l, exists v,
    has_recovery_target (JStr s) self' l = (Ok v, self', l) /\
    (truthy v = true <->
     exists r target_id, r ∈ records /\ listed_as (lower s) r = Some target_id).
Proof.
  intros Hrefresh Hreq Hbody Hkey s l.
  destruct (refresh_Ok_records _ _ _ _ _ _ _ _ Hrefresh Hreq Hbody Hkey)
    as (d & -> & Hd).
  unfold has_recovery_target, mbind, M_bind, gets. simpl.
  destruct (bool_decide (d = ∅)) eqn:Hempty.
  - apply bool_decide_eq_true in Hempty. subst d.
    exists EMPTY_DICT. split; [reflexivity|].
    rewrite <- last_listed_is_Some. simpl.
    specialize (Hd (lower s)). rewrite lookup_empty in Hd.
    destruct (last_listed (lower s) records); [discriminate|].
    split; [discriminate|]. intros [? [=]].
  - eexists. split; [reflexivity|].
    rewrite <- last_listed_is_Some. simpl.
    rewrite bool_decide_eq_true, Hd.
    destruct (last_listed (lower s) records); split; eauto; intros [? [=]].
Qed.

(** X11.  Every key of the catalog a refresh has loaded is the
    lower-cased name of a record of the list response that is not
    ["CLEAN_ROOM"], and its value is [str] of the id of that record; when
    [lower()] leaves the lower-cased names of the records as they are,
    it leaves every key as it is. *)
Theorem catalog_keys_lower cc self log self' log' response items records :
  refresh cc self log = (Ok (), self', log') ->
  make_request cc (length log) "GET" (GET_ALL_RECOVERY_TARGETS cc) = (true, response) ->
  json_ response = JObj items ->
  dict_lookup "recoveryTargets" items = Some (JList records) ->
  (forall r applicationType name i,
     r ∈ records -> record_fields r = Some (applicationType, name, i) ->
     lower (lower name) = lower name) ->
  exists d, all_targets self' = Some d /\
    forall k v, d !! k = Some v ->
      lower k = k /\
      exists r target_id, r ∈ records /\ listed_as k r = Some target_id /\
                          v = py_str target_id.
Proof.
  intros Hrefresh Hreq Hbody Hkey Hstable.
  destruct (refresh_Ok_records _ _ _ _ _ _ _ _ Hrefresh Hreq Hbody Hkey)
    as (d & -> & Hd).
  exists d. split; [reflexivity|]. intros k v Hkv. rewrite Hd in Hkv.
  destruct (last_listed k records) as [i|] eqn:Hlast; [|discriminate].
  injection Hkv as <-.
  apply last_listed_Some in Hlast as (pre & r & post & -> & Hr & _).
  assert (Hin : r ∈ pre ++ r :: post) by (rewrite elem_of_app, elem_of_cons; auto).
  split; [exact (listed_as_lower _ _ _ (fun a n j => Hstable r a n j Hin) Hr)|].
  exists r, i. auto.
Qed.

Lemma new_self {S T} (blank : T) (init : M T unit) (self : S) log :
  (new blank init self log).1.2 = self.
Proof. unfold new. destruct (init blank log) as [[[[]|e] obj] l]; reflexivity. Qed.

(** X12.  The lookups leave the catalog as it is, whatever they return
    or raise: [has_recovery_target] changes neither the catalog nor the
    log of requests, and [get] does not change the catalog. *)
Theorem lookups_leave_catalog cc v self log :
  (has_recovery_target v self log).1.2 = self /\
  (has_recovery_target v self log).2 = log /\
  (get cc v self log).1.2 = self.
Proof.
  split; [|split].
  - unfold has_recovery_target, mbind, M_bind, gets.
    destruct v; try reflexivity.
    destruct (_recovery_targets self); [|reflexivity]. by case_match.
  - apply silent_has_recovery_target.
  - unfold get. destruct v as [| | |s| |]; try reflexivity.
    unfold has_recovery_target, mbind, M_bind, gets, all_targets.
    destruct (_recovery_targets self) as [d|] eqn:Hd; [|reflexivity].
    destruct (bool_decide (d = ∅)); [reflexivity|]. simpl.
    destruct (bool_decide _); [|reflexivity]. simpl. rewrite Hd.
    unfold lift. destruct (d !! lower s); [|reflexivity].
    apply new_self.
Qed.

(** ** What [get] returns *)

Lemma get_Ok cc s self log obj self' log' :
  get cc (JStr s) self log = (Ok obj, self', log') ->
  exists d target_id,
    all_targets self = Some d /\ d !! lower s = Some target_id /\
    new_RecoveryTarget cc (JStr (lower s)) (JStr target_id) self log =
      (Ok obj, self', log').
Proof.
  unfold get, has_recovery_target, all_targets.
  unfold mbind at 1, M_bind at 1. unfold mbind at 1, M_bind at 1. unfold gets at 1.
  destruct (_recovery_targets self) as [d|] eqn:Hd; [|discriminate].
  simpl. destruct (bool_decide (d = ∅)); [discriminate|].
  unfold mret, M_ret. simpl.
  destruct (bool_decide (is_Some (d !! lower (lower s)))); [|discriminate]. simpl.
  unfold mbind at 1, M_bind at 1, gets at 1, all_targets. rewrite Hd.
  unfold mbind at 1, M_bind at 1, lift. simpl.
  destruct (d !! lower s) as [target_id|] eqn:Hkey; [|discriminate].
  intros Hnew. exists d, target_id. auto.
Qed.

(** X13.  A target that [get] returns is a loaded one: the input was a
    string whose lower case is a key of the cached catalog, the name of
    the target is the lower case of that key (the constructor lower-cases
    the name that [get] has lower-cased), and the target has a stored
    document with an [entity] and the policy type of that document; when
    the stored id is not empty the target has that id. *)
Theorem get_returns_loaded cc v self log obj self' log' :
  get cc v self log = (Ok obj, self', log') ->
  exists s d target_id props policyType,
    v = JStr s /\
    all_targets self = Some d /\ d !! lower s = Some target_id /\
    read_property "recovery_target_name" obj = Ok (JStr (lower (lower s))) /\
    (target_id ≠ "" -> read_property "recovery_target_id" obj = Ok (JStr target_id)) /\
    obj !! "_recovery_target_properties" = Some props /\
    doc_policy_type props = Ok policyType /\
    policy_type obj = Ok (JNum (policy_type_code policyType)).
Proof.
  intros Hget.
  destruct v as [| | |s| |]; try discriminate.
  apply get_Ok in Hget as (d & target_id & Hall & Hkey & Hget).
  pose proof Hget as Hnew.
  apply new_RecoveryTarget_Ok in Hnew as (n & tid & url & props & log0 & Hload).
  apply populate_Ok in Hload as (pt & Hpt & Hprops & Hcode & _).
  exists s, d, target_id, props, pt.
  split; [reflexivity|]. split; [exact Hall|]. split; [exact Hkey|].
  assert (Hname : read_property "recovery_target_name" obj =
                    Ok (JStr (lower (lower s)))).
  { pose proof Hget as Hnamed.
    apply new_RecoveryTarget_named in Hnamed as (tid' & log1 & _ & Hrefresh).
    apply refresh_keeps_identity in Hrefresh as (Hname & _ & _).
    rewrite (read_property_attr _ "_recovery_target_name") by (unfold properties; is_in).
    by rewrite Hname. }
  split; [exact Hname|]. split.
  - intros Hid.
    assert (Hgiven : truthy (JStr target_id) = true)
      by (simpl; by apply negb_true_iff, String.eqb_neq).
    by destruct (new_RecoveryTarget_given_id _ _ _ _ _ _ _ _ Hget Hgiven) as (_ & Hthe_id & _).
  - split; [exact Hprops|]. split; [exact Hpt|].
    unfold policy_type.
    rewrite (read_property_attr _ "_policy_type") by (unfold properties; is_in).
    by rewrite Hcode.
Qed.

(** X14.  Each load sends exactly one request, whether it returns or
    raises: a refresh of the catalog sends the list request, and a
    refresh of a target that has its URL sends the detail request.
    Nothing is sent twice. *)
Theorem one_request_per_load cc :
  (forall self log,
     (refresh cc self log).2 = log ++ [("GET", GET_ALL_RECOVERY_TARGETS cc)]) /\
  (forall (self : attrs) log url,
     self !! "_RECOVERY_TARGET_API" = Some (JStr url) ->
     (RecoveryTarget_refresh cc self log).2 = log ++ [("GET", url)]).
Proof.
  split.
  - intros self log. unfold refresh, mbind, M_bind.
    rewrite _get_recovery_targets_eq.
    destruct (recovery_targets_of _ _ _); reflexivity.
  - intros self log url Hapi. rewrite (refresh_unfold _ _ _ _ Hapi).
    apply silent_load_properties.
Qed.

(** ** The fields of a policy type *)

(** The branch a load that returns has run, and the object it ran on:
    the one after the common fields and the policy type. *)
Lemma populate_loader props (self : attrs) log self' log' :
  populate props self log = (Ok (), self', log') ->
  exists policyType self1,
    doc_policy_type props = Ok policyType /\
    (forall a, a ∉ common_attrs -> self1 !! a = self !! a) /\
    match policy_type_code policyType with
    | 1 => load_aws props
    | 2 => load_hyperv props
    | 7 => load_azure props
    | 13 => load_vmware props
    | _ => mret ()
    end%Z self1 log = (Ok (), self', log').
Proof.
  unfold populate. intros H.
  apply bind_Ok in H as ([] & s1 & l1 & Hcommon & H).
  pose proof (load_common_Ok _ _ _ _ _ Hcommon)
    as (? & ? & ? & ? & ? & ? & ? & ? & _ & _ & _ & _ & _ & _ & _ & _ & Hlog & _).
  subst l1.
  apply bind_Ok in H as (pt & s2 & l2 & Hpt & H).
  apply lift_Ok in Hpt as (Hpt & -> & ->).
  apply bind_Ok in H as ([] & s2 & l2 & Hset & H).
  apply setattr_Ok in Hset as [-> ->].
  apply bind_Ok in H as (code & s3 & l3 & Hcode & H).
  apply getattr_Ok in Hcode as (Hcode & -> & ->).
  rewrite lookup_insert_eq in Hcode. injection Hcode as <-.
  exists pt, (<["_policy_type" := JNum (policy_type_code pt)]> s1).
  split; [exact Hpt|]. split.
  - intros a Ha.
    rewrite lookup_insert_ne by (intros <-; apply Ha; unfold common_attrs; is_in).
    apply (preserved _ _ _ _ _ _ _ (preserves_load_common a props Ha) Hcommon).
  - exact H.
Qed.

(** One assignment [self.a = e] of a branch that returns. *)
Ltac assigned H :=
  let Hv := fresh "Hvalue" in
  match type of H with
  | (setattr_from _ _ ≫= _) _ _ = (Ok _, _, _) =>
      apply bind_Ok in H as ([] & ? & ? & Hv & H);
      apply setattr_from_Ok in Hv as (? & Hv & -> & ->)
  | setattr_from _ _ _ _ = (Ok _, _, _) =>
      apply setattr_from_Ok in H as (? & Hv & -> & ->)
  end.

Ltac expiration_set H :=
  let Hs := fresh "Hexp" in
  apply bind_Ok in H as ([] & ? & ? & Hs & H);
  apply set_expiration_time_Ok in Hs as [-> ->].

(** The value of an attribute in an object written as assignments. *)
Ltac assigned_value :=
  rewrite ?lookup_insert_ne by discriminate; apply lookup_insert_eq.

Ltac fields_in Hin :=
  repeat (apply elem_of_cons in Hin as [[= -> ->]|Hin];
          [eexists; split; [eassumption|assigned_value]|]);
  by apply elem_of_nil in Hin.

Lemma load_aws_fields props (self : attrs) log self' log' :
  load_aws props self log = (Ok (), self', log') ->
  forall a e, (a, e) ∈ aws_fields props -> exists v, e = Ok v /\ self' !! a = Some v.
Proof.
  unfold load_aws. intros H. repeat assigned H. expiration_set H. repeat assigned H.
  intros a e Hin. unfold aws_fields in Hin.
  destruct (rendered_expiration props); fields_in Hin.
Qed.

Lemma load_hyperv_fields props (self : attrs) log self' log' :
  load_hyperv props self log = (Ok (), self', log') ->
  forall a e, (a, e) ∈ hyperv_fields props -> exists v, e = Ok v /\ self' !! a = Some v.
Proof.
  unfold load_hyperv. intros H. repeat assigned H.
  intros a e Hin. unfold hyperv_fields in Hin. fields_in Hin.
Qed.

Lemma load_azure_fields props (self : attrs) log self' log' :
  load_azure props self log = (Ok (), self', log') ->
  forall a e, (a, e) ∈ azure_fields props -> exists v, e = Ok v /\ self' !! a = Some v.
Proof.
  unfold load_azure. intros H. repeat assigned H. expiration_set H. repeat assigned H.
  intros a e Hin. unfold azure_fields in Hin.
  destruct (rendered_expiration props); fields_in Hin.
Qed.

(** The VMware branch, with its two assignments under a condition. *)
Lemma load_vmware_fields props (self : attrs) log self' log' :
  load_vmware props self log = (Ok (), self', log') ->
  (forall a e, (a, e) ∈ vmware_fields props -> exists v, e = Ok v /\ self' !! a = Some v) /\
  (exists mediaAgent,
     py_get props "mediaAgent" EMPTY_DICT = Ok mediaAgent /\
     if truthy mediaAgent then
       exists v, (ma ← py_getitem props "mediaAgent"; py_getitem ma "clientName") = Ok v /\
                 self' !! "_failover_ma" = Some v
     else self' !! "_failover_ma" = self !! "_failover_ma") /\
  (exists associatedClientGroup,
     py_get props "associatedClientGroup" JNull = Ok associatedClientGroup /\
     if truthy associatedClientGroup then
       exists v, (g ← py_getitem props "associatedClientGroup";
                  py_getitem g "clientGroupName") = Ok v /\
                 self' !! "_server_group" = Some v
     else self' !! "_server_group" = self !! "_server_group").
Proof.
  unfold load_vmware. intros H. repeat assigned H. expiration_set H.
  apply bind_Ok in H as (mediaAgent & s1 & l1 & Hma & H).
  apply lift_Ok in Hma as (Hma & -> & ->).
  apply bind_Ok in H as ([] & s1 & l1 & Hfailover & H).
  repeat assigned H.
  apply bind_Ok in H as (associatedClientGroup & s2 & l2 & Hgroup & H).
  apply lift_Ok in Hgroup as (Hgroup & -> & ->).
  destruct (truthy mediaAgent) eqn:Hmedia, (truthy associatedClientGroup) eqn:Hassociated.
  all: first [apply setattr_from_Ok in Hfailover as (failover & Hfailover & -> & ->)
             | injection Hfailover as <- <-].
  all: first [apply setattr_from_Ok in H as (server & Hserver & -> & ->)
             | injection H as <- <-].
  all: (split; [intros a e Hin; unfold vmware_fields in Hin;
                destruct (rendered_expiration props); fields_in Hin|]).
  all: split; [exists mediaAgent; split; [exact Hma|]; rewrite Hmedia
              |exists associatedClientGroup; split; [exact Hgroup|]; rewrite Hassociated].
  all: try (eexists; split; [eassumption|assigned_value]).
  all: rewrite ?lookup_insert_ne by discriminate.
  all: destruct (rendered_expiration props);
         rewrite ?lookup_insert_ne by discriminate; reflexivity.
Qed.

(** X15.  On a constructed target every attribute that the branch of
    its policy type assigns without a condition holds the value of the
    expression of the source on the stored document, and the property
    of that attribute returns it: the first entry of a list where the
    source takes [[0]], the whole list of [destinationNetworks] for
    VMware, the test VM size of Azure from [amazonPolicy]. *)
Theorem variant_fields_of_document {S} cc name recovery_target_id (self : S) log
    obj self' log' :
  new_RecoveryTarget cc name recovery_target_id self log = (Ok obj, self', log') ->
  exists props policyType,
    obj !! "_recovery_target_properties" = Some props /\
    doc_policy_type props = Ok policyType /\
    forall a e, (a, e) ∈ fields_of (policy_type_code policyType) props ->
      exists v, e = Ok v /\ obj !! a = Some v /\
        forall prop, (prop, a) ∈ properties -> read_property prop obj = Ok v.
Proof.
  intros Hnew.
  apply new_RecoveryTarget_Ok in Hnew as (n & target_id & url & props & log0 & Hload).
  destruct (populate_Ok _ _ _ _ _ Hload) as (pt & Hpt & Hprops & _).
  apply populate_loader in Hload as (pt' & s1 & Hpt' & _ & Hbranch).
  assert (pt' = pt) as -> by congruence.
  exists props, pt. split; [exact Hprops|]. split; [exact Hpt|].
  intros a e Hin.
  assert (Hfield : exists v, e = Ok v /\ obj !! a = Some v).
  { unfold fields_of in Hin.
    pose proof (policy_type_code_cases pt) as Hc.
    repeat (apply elem_of_cons in Hc as [Hc|Hc]); [| | | | |by apply elem_of_nil in Hc];
      rewrite Hc in Hin, Hbranch.
    - exact (load_aws_fields _ _ _ _ _ Hbranch a e Hin).
    - exact (load_hyperv_fields _ _ _ _ _ Hbranch a e Hin).
    - exact (load_azure_fields _ _ _ _ _ Hbranch a e Hin).
    - exact (proj1 (load_vmware_fields _ _ _ _ _ Hbranch) a e Hin).
    - by apply elem_of_nil in Hin. }
  destruct Hfield as (v & He & Ha). exists v. split; [exact He|]. split; [exact Ha|].
  intros prop Hprop. rewrite (read_property_attr _ _ _ Hprop), Ha. reflexivity.
Qed.

(** X16.  On a constructed VMware target [failover_ma] is the
    [clientName] of [mediaAgent] when the stored document has a
    [mediaAgent] that is not empty, and [None] otherwise; [server_group]
    is the [clientGroupName] of [associatedClientGroup] when the
    document has one that is not empty, and raises [AttributeError]
    otherwise. *)
Theorem vmware_optional_fields {S} cc name recovery_target_id (self : S) log
    obj self' log' props policyType :
  new_RecoveryTarget cc name recovery_target_id self log = (Ok obj, self', log') ->
  obj !! "_recovery_target_properties" = Some props ->
  doc_policy_type props = Ok policyType ->
  policy_type_code policyType = 13%Z ->
  exists mediaAgent associatedClientGroup,
    py_get props "mediaAgent" EMPTY_DICT = Ok mediaAgent /\
    py_get props "associatedClientGroup" JNull = Ok associatedClientGroup /\
    read_property "failover_ma" obj =
      (if truthy mediaAgent
       then ma ← py_getitem props "mediaAgent"; py_getitem ma "clientName"
       else Ok JNull) /\
    server_group obj =
      (if truthy associatedClientGroup
       then g ← py_getitem props "associatedClientGroup"; py_getitem g "clientGroupName"
       else Raise AttributeError).
Proof.
  intros Hnew Hdoc Hpt Hcode.
  apply new_RecoveryTarget_Ok in Hnew as (n & target_id & url & props' & log0 & Hload).
  destruct (populate_Ok _ _ _ _ _ Hload) as (pt & _ & Hprops & _).
  assert (props' = props) as -> by congruence.
  apply populate_loader in Hload as (pt' & s1 & Hpt' & Hsame & Hbranch).
  assert (pt' = policyType) as -> by congruence.
  rewrite Hcode in Hbranch.
  apply load_vmware_fields in Hbranch
    as (_ & (mediaAgent & Hma & Hfailover) & (associatedClientGroup & Hgroup & Hserver)).
  exists mediaAgent, associatedClientGroup.
  split; [exact Hma|]. split; [exact Hgroup|].
  unfold server_group.
  rewrite (read_property_attr _ "_failover_ma") by (unfold properties; is_in).
  rewrite (read_property_attr _ "_server_group") by (unfold properties; is_in).
  split.
  - destruct (truthy mediaAgent).
    + destruct Hfailover as (v & -> & ->). reflexivity.
    + rewrite Hfailover, Hsame by (unfold common_attrs; not_in).
      rewrite before_refresh_unset by not_in. reflexivity.
  - destruct (truthy associatedClientGroup).
    + destruct Hserver as (v & -> & ->). reflexivity.
    + rewrite Hserver, Hsame by (unfold common_attrs; not_in).
      rewrite before_refresh_unset by not_in. reflexivity.
Qed.

(** ** The field groups and the expiration time after any load *)

Lemma populate_fields props (self : attrs) log self' log' policyType :
  populate props self log = (Ok (), self', log') ->
  doc_policy_type props = Ok policyType ->
  forall a e, (a, e) ∈ fields_of (policy_type_code policyType) props ->
    exists v, e = Ok v /\ self' !! a = Some v.
Proof.
  intros Hload Hpt a e Hin.
  apply populate_loader in Hload as (pt & s1 & Hpt' & _ & Hbranch).
  assert (pt = policyType) as -> by congruence.
  unfold fields_of in Hin.
  pose proof (policy_type_code_cases policyType) as Hc.
  repeat (apply elem_of_cons in Hc as [Hc|Hc]); [| | | | |by apply elem_of_nil in Hc];
    rewrite Hc in Hin, Hbranch.
  - exact (load_aws_fields _ _ _ _ _ Hbranch a e Hin).
  - exact (load_hyperv_fields _ _ _ _ _ Hbranch a e Hin).
  - exact (load_azure_fields _ _ _ _ _ Hbranch a e Hin).
  - exact (proj1 (load_vmware_fields _ _ _ _ _ Hbranch) a e Hin).
  - by apply elem_of_nil in Hin.
Qed.

Lemma policy_type_read (obj : attrs) code :
  obj !! "_policy_type" = Some (JNum code) -> policy_type obj = Ok (JNum code).
Proof.
  intros Hcode. unfold policy_type.
  rewrite (read_property_attr _ "_policy_type") by (unfold properties; is_in).
  by rewrite Hcode.
Qed.

Lemma not_common a : a ∈ variant_attrs -> a ∉ common_attrs.
Proof.
  intros Ha. pose proof variant_attrs_fresh as Hfresh.
  rewrite Forall_forall in Hfresh. by destruct (Hfresh a Ha).
Qed.


Lemma expiration_time_read (obj : attrs) :
  expiration_time obj =
    match obj !! "_expiration_time" with
    | Some v => Ok v
    | None => Raise AttributeError
    end.
Proof. apply read_property_attr. unfold properties. is_in. Qed.

End recovery_targets.

(** ** The theorems at work on the examples *)

Lemma aws_run_constructed :
  aws_run no_container_str ascii_lower =
    (Ok (constructed (aws_run no_container_str ascii_lower)), (), [("GET", "/recoveryTargets/1")]).
Proof.
  vm_cast_no_check
    (eq_refl (Ok (constructed (aws_run no_container_str ascii_lower)), (),
              [("GET", "/recoveryTargets/1")])).
Defined.

Lemma aws_run_document :
  constructed (aws_run no_container_str ascii_lower) !! "_recovery_target_properties" = Some aws_body.
Proof. vm_compute. reflexivity. Defined.

(** The scenario of the specification: the catalog is [{"tgt1": "1"}]. *)
Lemma load_builds_catalog_witness :
  exists d,
    _get_recovery_targets no_container_str ascii_lower (scripted [ok_response list_body])
      {| _recovery_targets := None |} [] =
      (Ok d, {| _recovery_targets := None |}, [("GET", "/recoveryTargets")]) /\
    d !! "tgt1" = Some "1" /\ d !! "cr" = None.
Proof.
  destruct (load_builds_catalog no_container_str ascii_lower (scripted [ok_response list_body])
              {| _recovery_targets := None |} []
              {| json_ := list_body; text := "" |} _ _ eq_refl eq_refl eq_refl)
    as (d & Hd & _ & Hin & Hout).
  { repeat constructor; eexists; reflexivity. }
  exists d. split; [exact Hd|]. split.
  - apply (Hin [] (record (JNum 1) "Tgt1" "REGULAR") [record (JNum 2) "CR" "CLEAN_ROOM"]
             (JStr "REGULAR") "Tgt1" (JNum 1) eq_refl eq_refl eq_refl).
    repeat constructor.
  - apply Hout. repeat constructor.
Defined.

Lemma policy_type_table_witness : policy_type_code (JStr "ORACLE_CLOUD") = (-1)%Z.
Proof.
  destruct (policy_type_table "ORACLE_CLOUD" ∅ []) as (_ & _ & _ & _ & _ & Hother).
  apply Hother. not_in.
Defined.

Lemma get_by_name_witness :
  (get no_container_str ascii_lower (scripted [ok_response aws_body]) (JStr "TGT1")
     loaded_catalog []).2 = [("GET", "/recoveryTargets/1")].
Proof.
  assert (Hstable : forall s, JStr "TGT1" = JStr s ->
            lower ascii_lower (lower ascii_lower s) = lower ascii_lower s)
    by (intros s [= <-]; reflexivity).
  pose proof (get_by_name no_container_str ascii_lower (scripted [ok_response aws_body])
                (JStr "TGT1") loaded_catalog [] Hstable) as Hget.
  assert (Hkey : all_targets loaded_catalog ≫= (fun d => d !! lower ascii_lower "TGT1") = Some "1")
    by (vm_compute; reflexivity).
  cbv beta iota in Hget. rewrite Hkey in Hget.
  destruct Hget as [_ Hlog]. apply Hlog. discriminate.
Defined.

(** The catalog with the empty id is the one the list response gives. *)
Lemma empty_id_catalog_loaded :
  new_RecoveryTargets no_container_str ascii_lower empty_id_session () [] =
    (Ok empty_id_catalog, (), [("GET", "/recoveryTargets")]).
Proof. vm_compute. reflexivity. Qed.

(** C5, as the specification has it, fails: the name is a key of the
    catalog, its id is the empty string, and the constructor, given an
    empty id, loads the list again before the detail request. *)
Lemma get_not_as_specified :
  ~ get_as_specified no_container_str ascii_lower empty_id_session (JStr "Tgt1") empty_id_catalog
      [("GET", "/recoveryTargets")].
Proof.
  unfold get_as_specified.
  assert (Hkey : all_targets empty_id_catalog ≫= (fun d => d !! lower ascii_lower "Tgt1") = Some "")
    by (vm_compute; reflexivity).
  rewrite Hkey. intros [_ Hlog].
  assert (Hsent : (get no_container_str ascii_lower empty_id_session (JStr "Tgt1") empty_id_catalog
                     [("GET", "/recoveryTargets")]).2 =
                  [("GET", "/recoveryTargets"); ("GET", "/recoveryTargets");
                   ("GET", "/recoveryTargets/")])
    by (vm_compute; reflexivity).
  rewrite Hsent in Hlog. discriminate.
Qed.


Lemma failed_refresh :
  refresh no_container_str ascii_lower (scripted []) loaded_catalog [] =
    (Raise (SDKException "Response" "101" "no answer"), loaded_catalog,
     [("GET", "/recoveryTargets")]).
Proof. reflexivity. Defined.

Lemma refresh_atomic_witness :
  all_targets loaded_catalog = Some {[ "tgt1" := "1" ]} /\
  forall name l,
    has_recovery_target ascii_lower name loaded_catalog l = has_recovery_target ascii_lower name loaded_catalog l.
Proof.
  destruct (refresh_atomic no_container_str ascii_lower (scripted []) loaded_catalog [] _ _ _
              failed_refresh) as (_ & Hall & Hhas & _).
  split; [exact Hall|exact Hhas].
Defined.

(** ** The further properties on the examples *)

Lemma first_refresh_returns :
  first_refresh no_container_str =
    (Ok (), (first_refresh no_container_str).1.2, [("GET", "/recoveryTargets/1")]).
Proof.
  vm_cast_no_check
    (eq_refl (Ok (), (first_refresh no_container_str).1.2,
              [("GET", "/recoveryTargets/1")])).
Defined.

Lemma refresh_idempotent_witness :
  [("GET", "/recoveryTargets/1")] = [] ++ [("GET", "/recoveryTargets/1")] /\
  RecoveryTarget_refresh no_container_str answers_twice
    (first_refresh no_container_str).1.2 [("GET", "/recoveryTargets/1")] =
    (Ok (), (first_refresh no_container_str).1.2,
     [("GET", "/recoveryTargets/1")] ++ [("GET", "/recoveryTargets/1")]).
Proof.
  apply (refresh_idempotent no_container_str ascii_lower answers_twice
           (before_refresh "tgt1" "1" "/recoveryTargets/1") []
           (first_refresh no_container_str).1.2 [("GET", "/recoveryTargets/1")]
           "/recoveryTargets/1").
  - apply before_refresh_api.
  - exact first_refresh_returns.
  - reflexivity.
Defined.


Lemma azure_refresh_returns :
  azure_refresh no_container_str ascii_lower =
    (Ok (), (azure_refresh no_container_str ascii_lower).1.2, [("GET", "/recoveryTargets/1")]).
Proof.
  vm_cast_no_check
    (eq_refl (Ok (), (azure_refresh no_container_str ascii_lower).1.2,
              [("GET", "/recoveryTargets/1")])).
Defined.

Lemma azure_refresh_document :
  (azure_refresh no_container_str ascii_lower).1.2 !! "_recovery_target_properties" = Some azure_body.
Proof. vm_compute. reflexivity. Defined.

(** The AWS target had ["4 hours"]; the Azure document says nothing, and
    ["4 hours"] stays. *)
Lemma refresh_keeps_expiration_witness :
  (azure_refresh no_container_str ascii_lower).1.2 !! "_expiration_time" =
    constructed (aws_run no_container_str ascii_lower) !! "_expiration_time".
Proof.
  apply (refresh_keeps_expiration no_container_str ascii_lower _ _ _ _ _ azure_body
           (JStr "AZURE_RESOURCE_MANAGER") azure_refresh_returns azure_refresh_document).
  - reflexivity.
  - is_in.
  - reflexivity.
  - reflexivity.
Defined.

Lemma hyperv_load_raises :
  hyperv_load no_container_str =
    (Raise TypeError, (hyperv_load no_container_str).1.2, []).
Proof.
  vm_cast_no_check
    (eq_refl (Raise (A := unit) TypeError, (hyperv_load no_container_str).1.2,
              @nil (string * string))).
Defined.

Lemma failed_load_keeps_document_witness :
  builtin TypeError /\
  (hyperv_load no_container_str).1.2 !! "_recovery_target_properties" = Some hyperv_body.
Proof.
  apply (failed_load_keeps_document no_container_str (scripted [])
           {| json_ := hyperv_body; text := "" |} ∅ [] TypeError _ []).
  - reflexivity.
  - reflexivity.
  - exact hyperv_load_raises.
Defined.

Lemma properties_return_witness :
  exists v,
    constructed (aws_run no_container_str ascii_lower) !! "_expiration_time" = Some v /\
    read_property "expiration_time" (constructed (aws_run no_container_str ascii_lower)) = Ok v.
Proof.
  apply (properties_return no_container_str ascii_lower _ _ _ _ _ _ _ _ "expiration_time"
           "_expiration_time" aws_run_constructed).
  - unfold properties. is_in.
  - discriminate.
Defined.

Lemma constructed_with_id_witness :
  read_property "recovery_target_name" (constructed (aws_run no_container_str ascii_lower)) =
    Ok (JStr "tgt1") /\
  read_property "recovery_target_id" (constructed (aws_run no_container_str ascii_lower)) =
    Ok (JStr "1") /\
  [("GET", "/recoveryTargets/1")] = [("GET", "/recoveryTargets/1")].
Proof.
  apply (constructed_with_id no_container_str ascii_lower _ "Tgt1" (JStr "1") () [] _ () _
           aws_run_constructed).
  reflexivity.
Defined.

Lemma lookup_run_constructed :
  lookup_run no_container_str ascii_lower =
    (Ok (constructed (lookup_run no_container_str ascii_lower)), (),
     [("GET", "/recoveryTargets"); ("GET", "/recoveryTargets/1")]).
Proof.
  vm_cast_no_check
    (eq_refl (Ok (constructed (lookup_run no_container_str ascii_lower)), (),
              [("GET", "/recoveryTargets"); ("GET", "/recoveryTargets/1")])).
Defined.

Lemma constructed_without_id_witness :
  exists (d : gmap string string) target_id,
    d !! "tgt1" = Some target_id /\
    read_property "recovery_target_id" (constructed (lookup_run no_container_str ascii_lower)) =
      Ok (JStr target_id).
Proof.
  destruct (constructed_without_id no_container_str ascii_lower _ "Tgt1" JNull () [] _ () _
              lookup_run_constructed eq_refl)
    as (d & target_id & _ & Hkey & _ & Hid & _).
  exists d, target_id. split; [exact Hkey|exact Hid].
Defined.

Lemma common_fields_of_document_witness :
  exists props,
    constructed (aws_run no_container_str ascii_lower) !! "_recovery_target_properties" = Some props /\
    chain props [("entity", EMPTY_DICT); ("applicationType", JNull)] =
      read_property "application_type" (constructed (aws_run no_container_str ascii_lower)).
Proof.
  destruct (common_fields_of_document no_container_str ascii_lower _ _ _ _ _ _ _ _
              aws_run_constructed) as (props & node_type & Hprops & Happ & _).
  eauto.
Defined.

Lemma security_user_names_of_document_witness :
  security_user_names (constructed (aws_run no_container_str ascii_lower)) = Ok (JList []).
Proof.
  destruct (security_user_names_of_document no_container_str ascii_lower _ _ _ _ _ _ _ _
              aws_run_constructed) as (props & users & Hprops & Husers & _ & Hnone).
  rewrite aws_run_document in Hprops. injection Hprops as <-.
  injection Husers as <-. apply Hnone. reflexivity.
Defined.

Lemma catalog_refreshed :
  refresh no_container_str ascii_lower (scripted [ok_response list_body])
    {| _recovery_targets := None |} [] =
    (Ok (), loaded_catalog, [("GET", "/recoveryTargets")]).
Proof. vm_compute. reflexivity. Defined.

Lemma has_after_refresh_witness :
  exists v,
    has_recovery_target ascii_lower (JStr "TGT1") loaded_catalog [] = (Ok v, loaded_catalog, []) /\
    (truthy v = true <->
     exists r target_id,
       r ∈ [record (JNum 1) "Tgt1" "REGULAR"; record (JNum 2) "CR" "CLEAN_ROOM"] /\
       listed_as ascii_lower (lower ascii_lower "TGT1") r = Some target_id).
Proof.
  apply (has_after_refresh no_container_str ascii_lower (scripted [ok_response list_body])
           {| _recovery_targets := None |} [] loaded_catalog _
           {| json_ := list_body; text := "" |} _ _
           catalog_refreshed eq_refl eq_refl eq_refl).
Defined.

Lemma catalog_keys_lower_witness :
  exists d : gmap string string, all_targets loaded_catalog = Some d /\
    forall k v, d !! k = Some v -> lower ascii_lower k = k.
Proof.
  assert (Hstable : forall r applicationType name i,
            r ∈ [record (JNum 1) "Tgt1" "REGULAR"; record (JNum 2) "CR" "CLEAN_ROOM"] ->
            record_fields r = Some (applicationType, name, i) ->
            lower ascii_lower (lower ascii_lower name) = lower ascii_lower name).
  { intros r applicationType name i Hr.
    repeat (apply elem_of_cons in Hr as [->|Hr]);
      [intros [= <- <- <-]; reflexivity..|by apply elem_of_nil in Hr]. }
  destruct (catalog_keys_lower no_container_str ascii_lower
              (scripted [ok_response list_body])
              {| _recovery_targets := None |} [] loaded_catalog _
              {| json_ := list_body; text := "" |} _ _
              catalog_refreshed eq_refl eq_refl eq_refl Hstable) as (d & Hall & Hkeys).
  exists d. split; [exact Hall|]. intros k v Hkv. by destruct (Hkeys k v Hkv).
Defined.

Lemma get_run_returns :
  get_run no_container_str ascii_lower =
    (Ok (constructed (get_run no_container_str ascii_lower)), loaded_catalog,
     [("GET", "/recoveryTargets/1")]).
Proof.
  vm_cast_no_check
    (eq_refl (Ok (constructed (get_run no_container_str ascii_lower)), loaded_catalog,
              [("GET", "/recoveryTargets/1")])).
Defined.

Lemma get_returns_loaded_witness :
  exists s (d : gmap string string) target_id,
    JStr "TGT1" = JStr s /\
    all_targets loaded_catalog = Some d /\
    d !! lower ascii_lower s = Some target_id /\
    read_property "recovery_target_name"
        (constructed (get_run no_container_str ascii_lower)) =
      Ok (JStr (lower ascii_lower (lower ascii_lower s))).
Proof.
  destruct (get_returns_loaded no_container_str ascii_lower _ _ _ _ _ _ _ get_run_returns)
    as (s & d & target_id & props & policyType & Hv & Hall & Hkey & Hname & _).
  exists s, d, target_id. auto.
Defined.

Lemma one_request_per_load_witness :
  (first_refresh no_container_str).2 = [("GET", "/recoveryTargets/1")].
Proof.
  destruct (one_request_per_load no_container_str ascii_lower answers_twice) as [_ Hone].
  apply (Hone (before_refresh "tgt1" "1" "/recoveryTargets/1") [] "/recoveryTargets/1").
  apply before_refresh_api.
Defined.

Lemma hyperv_run_constructed :
  hyperv_run no_container_str ascii_lower =
    (Ok (constructed (hyperv_run no_container_str ascii_lower)), (), [("GET", "/recoveryTargets/1")]).
Proof.
  vm_cast_no_check
    (eq_refl (Ok (constructed (hyperv_run no_container_str ascii_lower)), (),
              [("GET", "/recoveryTargets/1")])).
Defined.

Lemma hyperv_run_document :
  constructed (hyperv_run no_container_str ascii_lower) !! "_recovery_target_properties" =
    Some hyperv_network_body.
Proof. vm_compute. reflexivity. Defined.

(** Of the two networks of the Hyper-V document the target has the first. *)
Lemma variant_fields_of_document_witness :
  read_property "destination_network" (constructed (hyperv_run no_container_str ascii_lower)) =
    Ok (JStr "net0").
Proof.
  destruct (variant_fields_of_document no_container_str ascii_lower _ _ _ _ _ _ _ _
              hyperv_run_constructed) as (props & policyType & Hprops & Hpt & Hfields).
  rewrite hyperv_run_document in Hprops. injection Hprops as <-.
  injection Hpt as <-.
  destruct (Hfields "_destination_network" (Ok (JStr "net0"))) as (v & Hv & _ & Hread).
  { apply elem_of_cons. right. apply elem_of_cons. left. reflexivity. }
  injection Hv as <-. apply Hread. unfold properties. is_in.
Defined.

Lemma lookup_run_document :
  constructed (lookup_run no_container_str ascii_lower) !! "_recovery_target_properties" =
    Some vmware_body.
Proof. vm_compute. reflexivity. Defined.

Lemma vmware_optional_fields_witness :
  read_property "failover_ma" (constructed (lookup_run no_container_str ascii_lower)) = Ok JNull /\
  server_group (constructed (lookup_run no_container_str ascii_lower)) = Raise AttributeError.
Proof.
  destruct (vmware_optional_fields no_container_str ascii_lower _ _ _ _ _ _ _ _ vmware_body
              (JStr "VMW_LIVEMOUNT") lookup_run_constructed lookup_run_document
              eq_refl eq_refl)
    as (mediaAgent & associatedClientGroup & Hma & Hgroup & Hfailover & Hserver).
  injection Hma as <-. injection Hgroup as <-.
  split; [exact Hfailover|exact Hserver].
Defined.

(** ** The field groups and the expiration time after a refresh *)

Lemma aws_refresh_returns :
  aws_refresh no_container_str ascii_lower =
    (Ok (), (aws_refresh no_container_str ascii_lower).1.2,
     [("GET", "/recoveryTargets/1")]).
Proof.
  vm_cast_no_check
    (eq_refl (Ok (), (aws_refresh no_container_str ascii_lower).1.2,
              [("GET", "/recoveryTargets/1")])).
Defined.

Lemma aws_refresh_document :
  (aws_refresh no_container_str ascii_lower).1.2 !! "_recovery_target_properties" =
    Some aws_body.
Proof. vm_compute. reflexivity. Defined.




